(** * granola-skill: the cache query layer and its command line

    A shallow embedding of [src/cache.ts] (class [GranolaCache],
    [formatDocument], [formatTranscript]) and of the command dispatcher
    ([parseArgs], [listMeetings], [showMeeting], [searchMeetings],
    [exportMeeting], [main]), followed by the properties the specification
    states about them.

    Conventions of the embedding.
    - A JavaScript string is a [string]; each [ascii] stands for one code
      unit.  [length], [startsWith], [slice], [includes], [join] and
      concatenation act code unit by code unit, so nothing below depends on
      the width of a unit.  [toLowerCase] does not act unit by unit in
      general and is a service of the host.
    - [undefined] is [None]; an optional property [p?: T] is an [option T].
    - A JavaScript object used as a dictionary is an association list in
      property (insertion) order, as [Object.values] enumerates it; lookup
      returns the first binding of the key.  [Record_get] reads own
      properties; [Record_member] adds the members every object inherits
      from [Object.prototype], which [rec[key]] also finds.  The accessors
      come in both forms: [getDocument] and [getTranscript] for a key that
      is stored or names no inherited member, [getDocument_value] and
      [getTranscript_value] for every key.
    - A number is a [Z] (the code only produces integers: [parseInt],
      [length], millisecond time values); [NaN] is [None].  An integer
      stands for the double of the same value, which exists up to 2^53 in
      absolute value; a statement about an arbitrary number that is
      parsed or printed carries that bound (array lengths are below it).
    - What depends on the machine (clock, time zone, locale, file system)
      is a field of the class [Host]. *)

From Stdlib Require Import ZArith Lia Bool List String Ascii.
From Stdlib Require Import Permutation Sorted DecimalString DecimalPos.
Import ListNotations.

Local Open Scope string_scope.
Local Open Scope Z_scope.

(* ===================================================================== *)
(** ** JavaScript strings *)
(* ===================================================================== *)

Module JsString.

(** [s.startsWith(p)] *)
Definition startsWith (s p : string) : bool := String.prefix p s.

(** [s.includes(q)]: [q] occurs in [s] at some offset. *)
Fixpoint includes (s q : string) : bool :=
  String.prefix q s ||
  match s with
  | EmptyString => false
  | String _ r => includes r q
  end.

(** [s.slice(0, n)] for a non-negative literal [n]. *)
Definition slice0 (n : nat) (s : string) : string := String.substring 0 n s.

(** [s.slice(n)] for a non-negative literal [n]. *)
Fixpoint slice_from (n : nat) (s : string) : string :=
  match n, s with
  | O, _ => s
  | S n', String _ r => slice_from n' r
  | S _, EmptyString => EmptyString
  end.

(** [l.join(sep)] *)
Definition join (sep : string) (l : list string) : string := String.concat sep l.

(** A string is truthy when it is not empty. *)
Definition truthy (s : string) : bool := negb (String.eqb s "").

(** [String(n)] for an integer [n] below 10^21 in absolute value: its
    decimal digits.  (From 10^21 on the engine prints an exponent.) *)
Definition of_Z (n : Z) : string := NilZero.string_of_int (Z.to_int n).

(** [s.split(sep)[0]] for a one-unit separator: the part before its
      first occurrence, the whole string when there is none. *)
Fixpoint split_head (sep : ascii) (s : string) : string :=
  match s with
  | EmptyString => EmptyString
  | String c r => if Ascii.eqb c sep then EmptyString else String c (split_head sep r)
  end.

End JsString.
Import JsString.

(** [v || w] on values that are a string or [undefined]. *)
Definition js_or (v w : option string) : option string :=
  match v with
  | Some s => if truthy s then Some s else w
  | None => w
  end.

(** [v || "literal"]: the right operand is a string, so is the result. *)
Definition js_or_str (v : option string) (d : string) : string :=
  match js_or v (Some d) with
  | Some s => s
  | None => d
  end.

(** [Boolean(v)] for a string or [undefined]. *)
Definition truthy_opt (v : option string) : bool :=
  match v with
  | Some s => truthy s
  | None => false
  end.

(* ===================================================================== *)
(** ** The host: clock, time zone, locale, file system *)
(* ===================================================================== *)

(** A [Date] object is its time value in milliseconds, [None] for
    "Invalid Date" (time value [NaN]). *)
Definition Date := option Z.

Class Host := {
  (** [new Date(s).getTime()] *)
  Date_parse : string -> Date;
  (** [new Date().getTime()] *)
  Date_now : Z;
  (** [d.setDate(d.getDate() - n)] on a valid date [d]: [n] calendar days
  back in local time (out of range gives an invalid date). *)
  Date_minusDays : Z -> Z -> Date;
  (** [d.toLocaleString()] *)
  toLocaleString : Date -> string;
  (** [d.toLocaleDateString()] *)
  toLocaleDateString : Date -> string;
  (** [d.toLocaleTimeString()] *)
  toLocaleTimeString : Date -> string;
  (** [d.toLocaleTimeString([], {hour: "2-digit", minute: "2-digit"})] *)
  toLocaleTimeString_hm : Date -> string;
  (** [d.toISOString()] on a valid date (it throws on an invalid one). *)
  toISOString : Z -> string;
  (** [s.toLowerCase()] *)
  toLowerCase : string -> string;
  (** Lower-casing maps units to units, so the empty string to itself. *)
  toLowerCase_empty : toLowerCase "" = "";
  (** [existsSync(path)] *)
  existsSync : string -> bool;
  (** [join(dir, file)] of the [path] module *)
  path_join : string -> string -> string
}.

(** [new Date(s)] *)
Definition new_Date `{Host} (s : string) : Date := Date_parse s.

(** [a >= b] on two dates: both are converted to their time values and
    the comparison is false as soon as one is [NaN]. *)
Definition Date_geb (a b : Date) : bool :=
  match a, b with
  | Some x, Some y => y <=? x
  | _, _ => false
  end.

(** [a - b] on two time values: [NaN] as soon as one is [NaN]. *)
Definition num_sub (a b : option Z) : option Z :=
  match a, b with
  | Some x, Some y => Some (x - y)
  | _, _ => None
  end.

(* ===================================================================== *)
(** ** Array.prototype.sort *)
(* ===================================================================== *)

(** [arr.sort(comparefn)] is stable, and a comparator result that is [NaN]
    counts as [+0].  An element moves behind another one only when the
    comparator puts it strictly after.  For a consistent comparator this
    is the order every conforming engine produces; for an inconsistent one
    (which here needs an invalid timestamp) ECMAScript leaves the order to
    the engine, and the model keeps the stable insertion order. *)
Section ArraySort.
Context {A : Type}.
Variable comparefn : A -> A -> option Z.

Definition after (a b : A) : bool :=
  match comparefn a b with
  | Some v => 0 <? v
  | None => false
  end.

Fixpoint sort_insert (x : A) (l : list A) : list A :=
  match l with
  | [] => [x]
  | y :: r => if after x y then y :: sort_insert x r else x :: y :: r
  end.

Fixpoint Array_sort (l : list A) : list A :=
  match l with
  | [] => []
  | x :: r => sort_insert x (Array_sort r)
  end.
End ArraySort.

(* ===================================================================== *)
(** ** Data model ([src/cache.ts], lines 11-64) *)
(* ===================================================================== *)

Module PersonName.
Record t := mk { fullName : option string }.
End PersonName.

Module PersonInfo.
Record t := mk { name : option PersonName.t; avatar : option string }.
End PersonInfo.

Module Company.
Record t := mk { name : option string }.
End Company.

Module Details.
Record t := mk { person : option PersonInfo.t; company : option Company.t }.
End Details.

Module Person.
Record t := mk {
  name : option string;
  email : option string;
  details : option Details.t
}.
End Person.

Module People.
Record t := mk {
  title : option string;
  creator : option Person.t;
  attendees : option (list Person.t)
}.
End People.

Module TranscriptSegment.
Record t := mk {
  id : string;
  document_id : string;
  start_timestamp : string;
  end_timestamp : string;
  text : string;
  source : string;
  is_final : bool
}.
End TranscriptSegment.

Module CalendarEvent.
Record t := mk {
  summary : option string;
  start_dateTime : option string;
  end_dateTime : option string
}.
End CalendarEvent.

(** The interface [Document]: [title] is declared without [?], and every
    function but [searchDocuments] reads it unguarded; a document of this
    type has one. *)
Module Document.
Record t := mk {
  id : string;
  title : string;
  created_at : string;
  updated_at : string;
  notes_markdown : option string;
  notes_plain : option string;
  summary : option string;
  overview : option string;
  people : option People.t;
  status : option string;
  type : option string;
  google_calendar_event : option CalendarEvent.t
}.
End Document.

(** [Record<string, V>]: bindings in property order. *)
Definition Record_ (V : Type) := list (string * V).

(** [rec[key]] among the own properties of [rec]. *)
Fixpoint Record_get {V : Type} (rec : Record_ V) (key : string) : option V :=
  match rec with
  | [] => None
  | (k, v) :: r => if String.eqb k key then Some v else Record_get r key
  end.

(** The names of the members of [Object.prototype], which every object
    written as a literal or returned by [JSON.parse] inherits. *)
Definition Object_prototype_names : list string :=
  [ "constructor"; "__defineGetter__"; "__defineSetter__"; "hasOwnProperty";
    "__lookupGetter__"; "__lookupSetter__"; "isPrototypeOf";
    "propertyIsEnumerable"; "toString"; "valueOf"; "__proto__";
    "toLocaleString" ].

(** [key] names a member of [Object.prototype]. *)
Definition inherited (key : string) : bool :=
  existsb (String.eqb key) Object_prototype_names.

(** What [rec[key]] evaluates to: the value of an own property, else the
    member of that name inherited from [Object.prototype] (a function, or
    the prototype itself for [__proto__]: a truthy value in each case),
    else [undefined]. *)
Inductive Member (V : Type) :=
| Own (v : V)
| Inherited (name : string)
| Missing.
Arguments Own {V} v.
Arguments Inherited {V} name.
Arguments Missing {V}.

(** [rec[key]] *)
Definition Record_member {V : Type} (rec : Record_ V) (key : string) : Member V :=
  match Record_get rec key with
  | Some v => Own v
  | None => if inherited key then Inherited key else Missing
  end.

(** [Object.values(rec)] *)
Definition Object_values {V : Type} (rec : Record_ V) : list V := map snd rec.

Module CacheState.
(** The interface declares both mappings as present; the accessors guard
      every step with [?.], so each may be missing.  [documentPanels] is
      never read. *)
Record t := mk {
  documents : option (Record_ Document.t);
  transcripts : option (Record_ (list TranscriptSegment.t))
}.
End CacheState.

Module CacheData.
Record t := mk { state : option CacheState.t }.
End CacheData.

(** The class [GranolaCache]: its one field, [data: CacheData | null]. *)
Module GranolaCache.
Record t := mk { data : option CacheData.t }.
End GranolaCache.


(* ===================================================================== *)
(** ** The class GranolaCache ([src/cache.ts], lines 89-127) *)
(* ===================================================================== *)

Section Cache.
Context `{Host}.

(** [this.data?.state?.documents] *)
Definition cache_documents (c : GranolaCache.t) : option (Record_ Document.t) :=
  match GranolaCache.data c with
  | Some d =>
      match CacheData.state d with
      | Some st => CacheState.documents st
      | None => None
      end
  | None => None
  end.

(** [this.data?.state?.transcripts] *)
Definition cache_transcripts (c : GranolaCache.t)
  : option (Record_ (list TranscriptSegment.t)) :=
  match GranolaCache.data c with
  | Some d =>
      match CacheData.state d with
      | Some st => CacheState.transcripts st
      | None => None
      end
  | None => None
  end.

(** Lines 89-92.  An object is truthy, also an empty one. *)
Definition getDocuments (c : GranolaCache.t) : list Document.t :=
  match cache_documents c with
  | None => []
  | Some docs => Object_values docs
  end.

(** Lines 94-96, for every [id]: a stored document, [undefined], or the
    member of [Object.prototype] that [id] names. *)
Definition getDocument_value (c : GranolaCache.t) (id : string) : Member Document.t :=
  match cache_documents c with
  | None => Missing
  | Some docs => Record_member docs id
  end.

(** Lines 94-96, for an [id] that is stored or names no inherited member
    (so for every [id] of 36 units or more, the case in which the
    dispatcher calls it): the document, or [undefined]. *)
Definition getDocument (c : GranolaCache.t) (id : string) : option Document.t :=
  match cache_documents c with
  | None => None
  | Some docs => Record_get docs id
  end.

(** Lines 98-100, for every [documentId].  An array is truthy, also an
    empty one, and so is an inherited member: [|| []] only replaces
    [undefined].  The result is an array ([inl]) or the inherited member
    of that name ([inr]). *)
Definition getTranscript_value (c : GranolaCache.t) (documentId : string)
  : list TranscriptSegment.t + string :=
  match cache_transcripts c with
  | None => inl []
  | Some ts =>
      match Record_member ts documentId with
      | Own segments => inl segments
      | Inherited name => inr name
      | Missing => inl []
      end
  end.

(** Lines 98-100, for a [documentId] that is stored or names no inherited
    member: the array returned. *)
Definition getTranscript (c : GranolaCache.t) (documentId : string)
  : list TranscriptSegment.t :=
  match cache_transcripts c with
  | None => []
  | Some ts =>
      match Record_get ts documentId with
      | Some segments => segments
      | None => []
      end
  end.

(** [a.details?.person?.name?.fullName] *)
Definition resolved_fullName (a : Person.t) : option string :=
  match Person.details a with
  | Some d =>
      match Details.person d with
      | Some p =>
          match PersonInfo.name p with
          | Some n => PersonName.fullName n
          | None => None
          end
      | None => None
      end
  | None => None
  end.

(** [doc.people?.attendees] *)
Definition doc_attendees (doc : Document.t) : option (list Person.t) :=
  match Document.people doc with
  | Some p => People.attendees p
  | None => None
  end.

(** Lines 105-113: the predicate of the filter, for the lowered query [q]. *)
Definition search_matches (q : string) (doc : Document.t) : bool :=
  let title := js_or_str (Some (toLowerCase (Document.title doc))) "" in
  let notes := js_or_str (option_map toLowerCase (Document.notes_plain doc)) "" in
  let attendees :=
    js_or_str
      (option_map
         (fun l =>
            toLowerCase
              (join " " (map (fun a => js_or_str (js_or (resolved_fullName a) (Person.email a)) "") l)))
         (doc_attendees doc))
      "" in
  includes title q || includes notes q || includes attendees q.

(** Lines 102-115. *)
Definition searchDocuments (c : GranolaCache.t) (query : string) : list Document.t :=
  let q := toLowerCase query in
  filter (search_matches q) (getDocuments c).

(** [new Date(doc.created_at).getTime()] *)
Definition created_time (doc : Document.t) : option Z :=
  new_Date (Document.created_at doc).

(** Lines 117-127.  [days] is [None] when the argument is left out, which
    selects the default of the signature. *)
Definition getRecentDocuments (c : GranolaCache.t) (days : option Z) : list Document.t :=
  let days := match days with Some d => d | None => 7 end in
  let cutoff := Date_minusDays Date_now days in
  Array_sort (fun a b => num_sub (created_time b) (created_time a))
    (filter (fun doc => Date_geb (new_Date (Document.created_at doc)) cutoff)
       (getDocuments c)).

End Cache.

(* ===================================================================== *)
(** ** Formatters ([src/cache.ts], lines 130-179) *)
(* ===================================================================== *)

Section Formatters.
Context `{Host}.

(** Line 142 (and 194 of the dispatcher): the callback of the map,
    [a.details?.person?.name?.fullName || a.email || "Unknown"]. *)
Definition attendee_name (a : Person.t) : string :=
  js_or_str (js_or (resolved_fullName a) (Person.email a)) "Unknown".

(** Lines 140-143 (and 192-195 of the dispatcher): the names of the
    attendees, [attendees?.map(...).filter(Boolean) || []]. *)
Definition attendee_names (l : option (list Person.t)) : list string :=
  match l with
  | Some l => filter truthy (map attendee_name l)
  | None => []
  end.

(** Lines 132-159: the array [lines]. *)
Definition formatDocument_lines (doc : Document.t) (includeNotes : bool) : list string :=
  [ "# " ++ Document.title doc;
    "";
    "**ID:** " ++ Document.id doc;
    "**Date:** " ++ toLocaleString (new_Date (Document.created_at doc)) ]
  ++ match Document.people doc with
     | Some people =>
         let attendees := attendee_names (People.attendees people) in
         if (0 <? Z.of_nat (List.length attendees))
         then [ "**Participants:** " ++ join ", " attendees ]
         else []
     | None => []
     end
  ++ match Document.summary doc with
     | Some s => if truthy s then [ ""; "## Summary"; s ] else []
     | None => []
     end
  ++ (if includeNotes
      then match Document.notes_markdown doc with
           | Some n => if truthy n then [ ""; "## Notes"; n ] else []
           | None => []
           end
      else []).

(** Lines 131-162.  [includeNotes] defaults to [false]; every caller
    passes it. *)
Definition formatDocument (doc : Document.t) (includeNotes : bool) : string :=
  join (String "010" "") (formatDocument_lines doc includeNotes).

(** [new Date(seg.start_timestamp).getTime()] *)
Definition start_time (seg : TranscriptSegment.t) : option Z :=
  new_Date (TranscriptSegment.start_timestamp seg).

(** Lines 170-172: the comparator of the sort. *)
Definition by_start (a b : TranscriptSegment.t) : option Z :=
  num_sub (start_time a) (start_time b).

(** Lines 174-177: the line of one segment. *)
Definition transcript_line (seg : TranscriptSegment.t) : string :=
  let time := toLocaleTimeString (new_Date (TranscriptSegment.start_timestamp seg)) in
  "[" ++ time ++ "] " ++ TranscriptSegment.text seg.

(** Lines 165-179.  [segments] is an array the caller holds a reference
    to, and [sort] reorders that array in place and returns it.  The
    function is therefore a state transformer on the contents of the
    caller's array: the result pairs the returned string with the contents
    after the call. *)
Definition formatTranscript (segments : list TranscriptSegment.t)
  : string * list TranscriptSegment.t :=
  if (Z.of_nat (List.length segments) =? 0)
  then ("No transcript available.", segments)
  else
    let segments' := Array_sort by_start segments in
    (join (String "010" "") (map transcript_line segments'), segments').

End Formatters.

(* ===================================================================== *)
(** ** What a command does: console, file system, exit code *)
(* ===================================================================== *)

Inductive Event :=
| ConsoleLog (line : string)
| ConsoleError (line : string)
| MkdirSync (path : string)
| WriteFileSync (path content : string).

(** How a piece of code ends: it returns, it calls [process.exit(code)],
    or it throws. *)
Inductive Completion (A : Type) :=
| Returned (a : A)
| Exited (code : Z)
| Threw (error : string).
Arguments Returned {A} a.
Arguments Exited {A} code.
Arguments Threw {A} error.

(** The events so far, and how the code ended. *)
Definition Proc (A : Type) : Type := list Event * Completion A.

Definition ret {A} (a : A) : Proc A := ([], Returned a).

Definition bind {A B} (m : Proc A) (k : A -> Proc B) : Proc B :=
  match m with
  | (tr, Returned a) => let (tr', c) := k a in ((tr ++ tr')%list, c)
  | (tr, Exited code) => (tr, Exited code)
  | (tr, Threw e) => (tr, Threw e)
  end.

Declare Scope proc_scope.
Delimit Scope proc_scope with proc.
Notation "x <- m ;; k" := (bind m (fun x => k))
  (at level 61, m at next level, right associativity) : proc_scope.
Notation "m ;; k" := (bind m (fun _ => k))
  (at level 61, right associativity) : proc_scope.
Local Open Scope proc_scope.

Definition console_log (s : string) : Proc unit := ([ConsoleLog s], Returned tt).
Definition console_error (s : string) : Proc unit := ([ConsoleError s], Returned tt).
Definition process_exit {A} (code : Z) : Proc A := ([], Exited code).
Definition throw {A} (e : string) : Proc A := ([], Threw e).
Definition mkdirSync (path : string) : Proc unit := ([MkdirSync path], Returned tt).
Definition writeFileSync (path content : string) : Proc unit :=
  ([WriteFileSync path content], Returned tt).

(** [for (const x of l) body(x)] *)
Fixpoint for_of {A} (l : list A) (body : A -> Proc unit) : Proc unit :=
  match l with
  | [] => ret tt
  | x :: r => body x ;; for_of r body
  end.

(** The events of a run. *)
Definition trace {A} (p : Proc A) : list Event := fst p.

(** The exit code of the process when [p] is all it runs: 0 after a
    normal return, the argument of [process.exit], 1 after an uncaught
    exception. *)
Definition exit_code {A} (p : Proc A) : Z :=
  match snd p with
  | Returned _ => 0
  | Exited code => code
  | Threw _ => 1
  end.

(** The lines written to the standard output and to the error stream. *)
Definition stdout_of (tr : list Event) : list string :=
  flat_map (fun e => match e with ConsoleLog s => [s] | _ => [] end) tr.
Definition stderr_of (tr : list Event) : list string :=
  flat_map (fun e => match e with ConsoleError s => [s] | _ => [] end) tr.
Definition files_of (tr : list Event) : list (string * string) :=
  flat_map (fun e => match e with WriteFileSync p c => [(p, c)] | _ => [] end) tr.

(* ===================================================================== *)
(** ** The command dispatcher: arguments *)
(* ===================================================================== *)

Definition nl : string := String "010" "".
Definition dq : string := String "034" "".

(** [flags: Record<string, string | boolean>]; the only boolean stored is
    [true]. *)
Inductive FlagValue :=
| FlagString (s : string)
| FlagTrue.

Module Args.
Record t := mk {
  command : string;
  positional : list string;
  flags : Record_ FlagValue
}.
End Args.

(** [flags[key] = v]: the newest binding is found first.  For the key
    [__proto__] the assignment runs the setter inherited from
    [Object.prototype], which ignores a string or a boolean: nothing is
    stored.  The flags [main] reads by name ([help], [days],
    [transcript], [output]) are own properties or [undefined], no member
    of [Object.prototype] having one of these names: [Record_get] reads
    them. *)
Definition flag_set (flags : Record_ FlagValue) (key : string) (v : FlagValue)
  : Record_ FlagValue :=
  if String.eqb key "__proto__" then flags else (key, v) :: flags.

(** Lines 43-60: the loop, from index [i] on, [args] being what is left
    of the vector.  A flag that takes the next token as its value skips
    it ([i++]). *)
Fixpoint parseArgs_loop (args : list string) (st : Args.t) : Args.t :=
  match args with
  | [] => st
  | arg :: rest =>
      if negb (truthy (Args.command st)) && negb (startsWith arg "-") then
        parseArgs_loop rest (Args.mk arg (Args.positional st) (Args.flags st))
      else if startsWith arg "--" then
        let key := slice_from 2 arg in
        match rest with
        | next :: rest' =>
            if truthy next && negb (startsWith next "-") then
              parseArgs_loop rest'
                (Args.mk (Args.command st) (Args.positional st)
                   (flag_set (Args.flags st) key (FlagString next)))
            else
              parseArgs_loop rest
                (Args.mk (Args.command st) (Args.positional st)
                   (flag_set (Args.flags st) key FlagTrue))
        | [] =>
            Args.mk (Args.command st) (Args.positional st)
              (flag_set (Args.flags st) key FlagTrue)
        end
      else if negb (startsWith arg "-") then
        parseArgs_loop rest
          (Args.mk (Args.command st) (Args.positional st ++ [arg]) (Args.flags st))
      else parseArgs_loop rest st
  end.

(** Lines 34-63. *)
Definition parseArgs (args : list string) : Args.t :=
  parseArgs_loop args (Args.mk "" [] []).

(** [Boolean(flags[key])] *)
Definition flag_truthy (v : option FlagValue) : bool :=
  match v with
  | Some (FlagString s) => truthy s
  | Some FlagTrue => true
  | None => false
  end.

(** [String(v)] of a flag value, as [parseInt] applies it to its argument. *)
Definition flag_to_string (v : option FlagValue) : string :=
  match v with
  | Some (FlagString s) => s
  | Some FlagTrue => "true"
  | None => "undefined"
  end.

(** *** parseInt *)

(** White space that [parseInt] skips, among the units 0..255. *)
Definition is_white (c : ascii) : bool :=
  let n := N_of_ascii c in
  ((9 <=? n) && (n <=? 13) || (n =? 32) || (n =? 160))%N.

Fixpoint trim_start (s : string) : string :=
  match s with
  | String c r => if is_white c then trim_start r else s
  | EmptyString => s
  end.

(** The value of a digit or letter, as a digit of some radix. *)
Definition digit_of (c : ascii) : option Z :=
  let n := Z.of_N (N_of_ascii c) in
  if (48 <=? n) && (n <=? 57) then Some (n - 48)
  else if (97 <=? n) && (n <=? 122) then Some (n - 87)
  else if (65 <=? n) && (n <=? 90) then Some (n - 55)
  else None.

(** The value of the longest prefix of [s] made of digits of radix [R],
    [acc] being the value of the digits read so far ([None]: none yet). *)
Fixpoint digits_prefix (R : Z) (s : string) (acc : option Z) : option Z :=
  match s with
  | EmptyString => acc
  | String c r =>
      match digit_of c with
      | Some d =>
          if d <? R
          then digits_prefix R r (Some (match acc with Some a => a * R + d | None => d end))
          else acc
      | None => acc
      end
  end.

(** [parseInt(s)] with no radix: leading white space, an optional sign,
    an optional [0x] or [0X] prefix, then the longest run of digits;
    [NaN] when that run is empty.  (Beyond 2^53 the engine rounds to a
    double; the integer read is kept exact here.) *)
Definition parseInt (s : string) : option Z :=
  let s1 := trim_start s in
  let '(sign, s2) :=
    match s1 with
    | String "-" r => (-1, r)
    | String "+" r => (1, r)
    | _ => (1, s1)
    end in
  let '(R, s3) :=
    match s2 with
    | String "0" (String "x" r) => (16, r)
    | String "0" (String "X" r) => (16, r)
    | _ => (10, s2)
    end in
  option_map (Z.mul sign) (digits_prefix R s3 None).

(** [n || d] on numbers: [NaN] and zero are falsy. *)
Definition num_or (n : option Z) (d : Z) : Z :=
  match n with
  | Some v => if v =? 0 then d else v
  | None => d
  end.

(* ===================================================================== *)
(** ** The command dispatcher: commands *)
(* ===================================================================== *)

Section Commands.
Context `{Host}.

(** Lines 82-87: up to three attendees, by resolved full name or by the
    local part of the email address; those with neither are filtered out. *)
Definition list_attendees (doc : Document.t) : string :=
  match doc_attendees doc with
  | Some l =>
      join ", "
        (map (fun v => js_or_str v "")
           (filter truthy_opt
              (map (fun a => js_or (resolved_fullName a)
                                (option_map (split_head "@") (Person.email a)))
                 (firstn 3 l))))
  | None => ""
  end.

(** Lines 65-98. *)
Definition listMeetings (cache : GranolaCache.t) (days : Z) : Proc unit :=
  let docs := getRecentDocuments cache (Some days) in
  if (Z.of_nat (List.length docs) =? 0) then
    console_log ("No meetings found in the last " ++ of_Z days ++ " days.")
  else
    console_log ("## Recent Meetings (last " ++ of_Z days ++ " days)" ++ nl) ;;
    for_of docs (fun doc =>
      let date := toLocaleDateString (new_Date (Document.created_at doc)) in
      let time := toLocaleTimeString_hm (new_Date (Document.created_at doc)) in
      let attendees := list_attendees doc in
      console_log ("- **" ++ Document.title doc ++ "**") ;;
      console_log ("  ID: `" ++ slice0 8 (Document.id doc) ++ "` | " ++ date ++ " " ++ time) ;;
      (if truthy attendees then console_log ("  With: " ++ attendees) else ret tt) ;;
      console_log "") ;;
    console_log (nl ++ "Total: " ++ of_Z (Z.of_nat (List.length docs)) ++ " meetings").

(** Lines 109-110 (and 166-167): the documents whose identifier starts
    with [id]. *)
Definition prefix_matches (cache : GranolaCache.t) (id : string) : list Document.t :=
  let docs := getDocuments cache in
  filter (fun d => startsWith (Document.id d) id) docs.

(** Lines 106-126 of [showMeeting], repeated word for word as lines
    162-183 of [exportMeeting]: from the identifier typed by the user to
    the document, or to the error message and [process.exit(1)]. *)
Definition resolve_document (cache : GranolaCache.t) (id : string) : Proc Document.t :=
  doc <-
    (if (Z.of_nat (String.length id) <? 36) then
       let matches := prefix_matches cache id in
       match matches with
       | [m] => ret (Some m)
       | [] => ret None
       | _ :: _ :: _ =>
           console_error
             ("Multiple meetings match " ++ dq ++ id ++ dq ++ ". Be more specific:" ++ nl ++
              join nl
                (map (fun m => "  " ++ slice0 12 (Document.id m) ++ " - " ++ Document.title m)
                   matches)) ;;
           process_exit 1
       end
     else ret (getDocument cache id)) ;;
  match doc with
  | Some d => ret d
  | None =>
      console_error ("Meeting not found: " ++ id) ;;
      process_exit 1
  end.

(** Lines 128-134: what [showMeeting] does with the document it found.
    The transcript array is the one stored in the cache, and
    [formatTranscript] sorts it in place; nothing reads the cache
    afterwards, so the contents after the call are dropped here.  (As in
    [export_document] below, a document without a stored transcript
    whose identifier names a member of [Object.prototype] is left out:
    see [getTranscript_value].) *)
Definition show_document (cache : GranolaCache.t) (doc : Document.t)
           (includeTranscript : bool) : Proc unit :=
  console_log (formatDocument doc true) ;;
  if includeTranscript then
    let transcript := getTranscript cache (Document.id doc) in
    console_log (nl ++ "## Transcript" ++ nl) ;;
    console_log (fst (formatTranscript transcript))
  else ret tt.

(** Lines 100-135. *)
Definition showMeeting (cache : GranolaCache.t) (id : string) (includeTranscript : bool)
  : Proc unit :=
  doc <- resolve_document cache id ;;
  show_document cache doc includeTranscript.

(** Lines 137-155. *)
Definition searchMeetings (cache : GranolaCache.t) (query : string) : Proc unit :=
  let results := searchDocuments cache query in
  if (Z.of_nat (List.length results) =? 0) then
    console_log ("No meetings found matching " ++ dq ++ query ++ dq)
  else
    console_log ("## Search Results for " ++ dq ++ query ++ dq ++ nl) ;;
    for_of (firstn 20 results) (fun doc =>
      let date := toLocaleDateString (new_Date (Document.created_at doc)) in
      console_log ("- **" ++ Document.title doc ++ "**") ;;
      console_log ("  ID: `" ++ slice0 8 (Document.id doc) ++ "` | " ++ date) ;;
      console_log "") ;;
    console_log (nl ++ "Found: " ++ of_Z (Z.of_nat (List.length results)) ++ " meetings").

(** The [replace] of line 199: every double quote gets a backslash in
    front. *)
Fixpoint escape_quotes (s : string) : string :=
  match s with
  | EmptyString => EmptyString
  | String c r =>
      if Ascii.eqb c "034" then String "\" (String "034" (escape_quotes r))
      else String c (escape_quotes r)
  end.

(** A unit of the class [[a-z0-9]]. *)
Definition is_slug_char (c : ascii) : bool :=
  let n := N_of_ascii c in
  ((97 <=? n) && (n <=? 122) || (48 <=? n) && (n <=? 57))%N.

(** [s.replace(/[^a-z0-9]+/g, "-")]: every maximal run of other units
    becomes one dash.  [in_run] tells that the previous unit was already
    replaced. *)
Fixpoint slugify (in_run : bool) (s : string) : string :=
  match s with
  | EmptyString => EmptyString
  | String c r =>
      if is_slug_char c then String c (slugify false r)
      else if in_run then slugify true r
      else String "-" (slugify true r)
  end.

(** Lines 197-217: the text of the exported file. *)
Definition export_content (doc : Document.t) (attendees : list string)
           (transcript : list TranscriptSegment.t) : string :=
  "---" ++ nl ++
  "id: " ++ Document.id doc ++ nl ++
  "title: " ++ dq ++ escape_quotes (Document.title doc) ++ dq ++ nl ++
  "date: " ++ Document.created_at doc ++ nl ++
  "participants: [" ++ join ", " (map (fun a => dq ++ a ++ dq) attendees) ++ "]" ++ nl ++
  "---" ++ nl ++
  nl ++
  "# " ++ Document.title doc ++ nl ++
  nl ++
  "**Date:** " ++ toLocaleString (new_Date (Document.created_at doc)) ++ nl ++
  "**Participants:** " ++ js_or_str (Some (join ", " attendees)) "Unknown" ++ nl ++
  nl ++
  match Document.summary doc with
  | Some s => if truthy s then "## Summary" ++ nl ++ nl ++ s ++ nl else ""
  | None => ""
  end ++ nl ++
  "## Notes" ++ nl ++
  nl ++
  js_or_str (Document.notes_markdown doc) "No notes available." ++ nl ++
  nl ++
  "## Transcript" ++ nl ++
  nl ++
  fst (formatTranscript transcript) ++ nl.

(** Lines 185-228: what [exportMeeting] does with the document it
    found.  [toISOString] throws a [RangeError] on an invalid date.  The
    transcript is the array [getTranscript] returns; a document that has
    no stored transcript and whose identifier names a member of
    [Object.prototype] hands that member to [formatTranscript] instead
    (see [getTranscript_value]), a case this definition leaves out. *)
Definition export_document (cache : GranolaCache.t) (doc : Document.t)
           (outputDir : string) : Proc unit :=
  (if negb (existsSync outputDir) then mkdirSync outputDir else ret tt) ;;
  let transcript := getTranscript cache (Document.id doc) in
  let attendees := attendee_names (doc_attendees doc) in
  let content := export_content doc attendees transcript in
  match new_Date (Document.created_at doc) with
  | None => throw "RangeError: Invalid time value"
  | Some t =>
      let dateStr := split_head "T" (toISOString t) in
      let safeTitle := slice0 50 (slugify false (toLowerCase (Document.title doc))) in
      let filename := dateStr ++ "-" ++ safeTitle ++ ".md" in
      let filepath := path_join outputDir filename in
      writeFileSync filepath content ;;
      console_log ("Exported to: " ++ filepath)
  end.

(** Lines 157-229. *)
Definition exportMeeting (cache : GranolaCache.t) (id : string) (outputDir : string)
  : Proc unit :=
  doc <- resolve_document cache id ;;
  export_document cache doc outputDir.

End Commands.

(* ===================================================================== *)
(** ** The command dispatcher: main *)
(* ===================================================================== *)

(** Lines 12-32. *)
Definition USAGE : string :=
  nl ++
"granola - Access your Granola meeting notes

COMMANDS:
  list [--days N]           List recent meetings (default: 7 days)
  show <id> [--transcript]  Show meeting details
  search <query>            Search meetings by title, notes, or participant
  export <id> [--output DIR] Export meeting to markdown

OPTIONS:
  --days N       Number of days to look back (default: 7)
  --transcript   Include full transcript in output
  --output DIR   Output directory for export (default: ./granola-exports)
  --help         Show this help message

EXAMPLES:
  granola list --days 30
  granola show abc123 --transcript
  granola search " ++ dq ++ "product review" ++ dq ++ "
  granola export abc123 --output ./meetings
".

(** What [new GranolaCache()] gives in the file system of the host: the
    cache, or the message of the error it throws. *)
Inductive LoadResult :=
| Loaded (cache : GranolaCache.t)
| LoadFailed (message : string).

Section Main.
Context `{Host}.

(** Line 250: the second argument of [listMeetings]. *)
Definition list_days (flags : Record_ FlagValue) : Z :=
  num_or (parseInt (flag_to_string (Record_get flags "days"))) 7.

(** [positional[0]] is truthy *)
Definition has_positional (positional : list string) : bool :=
  match positional with
  | p :: _ => truthy p
  | [] => false
  end.

(** Lines 231-286; [args] is [process.argv.slice(2)]. *)
Definition main (args : list string) (load : LoadResult) : Proc unit :=
  let a := parseArgs args in
  let command := Args.command a in
  let positional := Args.positional a in
  let flags := Args.flags a in
  (if negb (truthy command) || flag_truthy (Record_get flags "help")
   then console_log USAGE ;; process_exit 0
   else ret tt) ;;
  cache <-
    match load with
    | Loaded c => ret c
    | LoadFailed message => console_error ("Error: " ++ message) ;; process_exit 1
    end ;;
  if String.eqb command "list" then
    listMeetings cache (list_days flags)
  else if String.eqb command "show" then
    (if negb (has_positional positional)
     then console_error "Usage: granola show <meeting-id> [--transcript]" ;; process_exit 1
     else ret tt) ;;
    showMeeting cache (hd "" positional) (flag_truthy (Record_get flags "transcript"))
  else if String.eqb command "search" then
    (if negb (has_positional positional)
     then console_error "Usage: granola search <query>" ;; process_exit 1
     else ret tt) ;;
    searchMeetings cache (join " " positional)
  else if String.eqb command "export" then
    (if negb (has_positional positional)
     then console_error "Usage: granola export <meeting-id> [--output DIR]" ;; process_exit 1
     else ret tt) ;;
    match Record_get flags "output" with
    | Some (FlagString s) =>
        exportMeeting cache (hd "" positional) (if truthy s then s else "./granola-exports")
    | None => exportMeeting cache (hd "" positional) "./granola-exports"
    | Some FlagTrue =>
        (* [--output] without a value: the boolean [true] is passed on as
           the directory; [existsSync(true)] is false and
           [mkdirSync(true, ...)] throws. *)
        resolve_document cache (hd "" positional) ;;
        throw "TypeError [ERR_INVALID_ARG_TYPE]: the path argument must be of type string"
    end
  else
    console_error ("Unknown command: " ++ command) ;;
    console_log USAGE ;;
    process_exit 1.

End Main.

(* ===================================================================== *)
(** ** The cache loader on untyped JSON ([src/cache.ts], lines 69-100) *)
(* ===================================================================== *)

(** [JSON.parse] returns a value no type has been checked on; the
    constructor and the accessors then navigate it with [?.], [||] and
    [Object.values].  This module follows them on arbitrary JSON values,
    which is where a field can be "malformed". *)
Module Raw.

Set Warnings "-register-all".

(** A value [JSON.parse] can return.  Of a number only whether it is zero
    is ever observed, so the integers stand for all numbers.  An object
    lists its properties in enumeration order, each key once. *)
Inductive json :=
| JNull
| JBool (b : bool)
| JNumber (n : Z)
| JString (s : string)
| JArray (elements : list json)
| JObject (properties : list (string * json)).

(** [Boolean(v)]; [undefined] is falsy. *)
Definition truthy (v : option json) : bool :=
  match v with
  | None => false
  | Some JNull => false
  | Some (JBool b) => b
  | Some (JNumber n) => negb (n =? 0)
  | Some (JString s) => JsString.truthy s
  | Some (JArray _) => true
  | Some (JObject _) => true
  end.

(** [typeof v === "string"] *)
Definition is_string (v : option json) : bool :=
  match v with
  | Some (JString _) => true
  | _ => false
  end.

(** The element whose index, written in decimal, is [key]; [i] is the
    index of the head of [l]. *)
Fixpoint index_get {A} (l : list A) (i : Z) (key : string) : option A :=
  match l with
  | [] => None
  | x :: r => if String.eqb (of_Z i) key then Some x else index_get r (i + 1) key
  end.

(** The units of a string, each as a string of length one. *)
Fixpoint units (s : string) : list json :=
  match s with
  | EmptyString => []
  | String c r => JString (String c EmptyString) :: units r
  end.

(** [v[key]] on a value that is neither [null] nor [undefined], for a
    [key] that names no member [v] inherits from its prototype chain: an
    own property of an object, an element or the length of an array or of
    a string, [undefined] otherwise.  The keys the loader reads by name
    ([cache], [state], [documents], [transcripts]) are of that kind on
    every value; an identifier passed by the caller need not be
    ([constructor], [toString], ... are inherited by every value). *)
Definition get (v : json) (key : string) : option json :=
  match v with
  | JObject props => Record_get props key
  | JArray l =>
      if String.eqb key "length" then Some (JNumber (Z.of_nat (List.length l)))
      else index_get l 0 key
  | JString s =>
      if String.eqb key "length" then Some (JNumber (Z.of_nat (String.length s)))
      else index_get (units s) 0 key
  | JNull | JBool _ | JNumber _ => None
  end.

(** [v?.[key]]: [undefined] when [v] is [null] or [undefined]. *)
Definition get_opt (v : option json) (key : string) : option json :=
  match v with
  | None | Some JNull => None
  | Some w => get w key
  end.

(** [Object.values(v)] on a value that is neither [null] nor
    [undefined]. *)
Definition values (v : json) : list json :=
  match v with
  | JObject props => map snd props
  | JArray l => l
  | JString s => units s
  | JNull | JBool _ | JNumber _ => []
  end.

Section Loader.
(** [JSON.parse]: [None] when it throws a [SyntaxError]. *)
Variable JSON_parse : string -> option json.

(** Lines 81-86, from the parsed top-level value to [this.data].
    Reading [outer.cache] throws when [outer] is [null]. *)
Definition unwrap (outer : json) : Completion json :=
  match outer with
  | JNull => Threw "TypeError: Cannot read properties of null (reading 'cache')"
  | _ =>
      match get outer "cache" with
      | Some (JString s) =>
          match JSON_parse s with
          | Some v => Returned v
          | None => Threw "SyntaxError"
          end
      | cache => if truthy cache then
                   match cache with Some v => Returned v | None => Returned outer end
                 else Returned outer
      end
  end.

(** Lines 69-87; [file] is the content of the file at [cachePath], [None]
    when there is no such file. *)
Definition constructor (cachePath : string) (file : option string) : Completion json :=
  match file with
  | None => Threw ("Granola cache not found at " ++ cachePath ++ ". Is Granola installed?")
  | Some raw =>
      match JSON_parse raw with
      | Some outer => unwrap outer
      | None => Threw "SyntaxError"
      end
  end.
End Loader.

(** [this.data?.state?.documents] *)
Definition data_documents (data : json) : option json :=
  get_opt (get_opt (Some data) "state") "documents".

(** [this.data?.state?.transcripts] *)
Definition data_transcripts (data : json) : option json :=
  get_opt (get_opt (Some data) "state") "transcripts".

(** Lines 89-92. *)
Definition getDocuments (data : json) : list json :=
  if negb (truthy (data_documents data)) then []
  else match data_documents data with
       | Some docs => values docs
       | None => []
       end.

(** Lines 94-96, for an [id] that names no inherited member. *)
Definition getDocument (data : json) (id : string) : option json :=
  get_opt (data_documents data) id.

(** Lines 98-100, for a [documentId] that names no inherited member (any
    [documentId] when the transcripts field is missing or [null], where
    [?.] stops before the lookup). *)
Definition getTranscript (data : json) (documentId : string) : json :=
  let v := get_opt (data_transcripts data) documentId in
  if truthy v then match v with Some w => w | None => JArray [] end
  else JArray [].

End Raw.

(* ===================================================================== *)
(** ** Typed snapshots as JSON *)
(* ===================================================================== *)

(** The JSON value a typed snapshot stands for: the interfaces of
    [src/cache.ts] read as a layout.  An optional property that is absent
    is left out of the object.  The typed accessors above are the untyped
    ones of [Raw] on such values (lemmas [getDocuments_typed] and
    following). *)
Module Encode.
Import Raw.

(** An object from its properties, the absent ones left out. *)
Definition object (props : list (string * option json)) : json :=
  JObject
    (flat_map (fun p => match snd p with Some v => [(fst p, v)] | None => [] end) props).

Definition str (s : string) : option json := Some (JString s).
Definition opt_str (s : option string) : option json := option_map JString s.

Definition person (a : Person.t) : json :=
  object
    [("name", opt_str (Person.name a));
     ("email", opt_str (Person.email a));
     ("details",
      option_map
        (fun d =>
           object
             [("person",
               option_map
                 (fun p =>
                    object
                      [("name",
                        option_map
                          (fun n => object [("fullName", opt_str (PersonName.fullName n))])
                          (PersonInfo.name p));
                       ("avatar", opt_str (PersonInfo.avatar p))])
                 (Details.person d));
              ("company",
               option_map (fun c => object [("name", opt_str (Company.name c))])
                 (Details.company d))])
        (Person.details a))].

Definition people (p : People.t) : json :=
  object
    [("title", opt_str (People.title p));
     ("creator", option_map person (People.creator p));
     ("attendees", option_map (fun l => JArray (map person l)) (People.attendees p))].

Definition calendar_event (e : CalendarEvent.t) : json :=
  object
    [("summary", opt_str (CalendarEvent.summary e));
     ("start",
      option_map (fun s => object [("dateTime", str s)]) (CalendarEvent.start_dateTime e));
     ("end",
      option_map (fun s => object [("dateTime", str s)]) (CalendarEvent.end_dateTime e))].

Definition document (d : Document.t) : json :=
  object
    [("id", str (Document.id d));
     ("title", str (Document.title d));
     ("created_at", str (Document.created_at d));
     ("updated_at", str (Document.updated_at d));
     ("notes_markdown", opt_str (Document.notes_markdown d));
     ("notes_plain", opt_str (Document.notes_plain d));
     ("summary", opt_str (Document.summary d));
     ("overview", opt_str (Document.overview d));
     ("people", option_map people (Document.people d));
     ("status", opt_str (Document.status d));
     ("type", opt_str (Document.type d));
     ("google_calendar_event",
      option_map calendar_event (Document.google_calendar_event d))].

Definition segment (s : TranscriptSegment.t) : json :=
  object
    [("id", str (TranscriptSegment.id s));
     ("document_id", str (TranscriptSegment.document_id s));
     ("start_timestamp", str (TranscriptSegment.start_timestamp s));
     ("end_timestamp", str (TranscriptSegment.end_timestamp s));
     ("text", str (TranscriptSegment.text s));
     ("source", str (TranscriptSegment.source s));
     ("is_final", Some (JBool (TranscriptSegment.is_final s)))].

(** A mapping, value by value. *)
Definition record {V} (f : V -> json) (rec : Record_ V) : json :=
  JObject (map (fun kv => (fst kv, f (snd kv))) rec).

Definition state (st : CacheState.t) : json :=
  object
    [("documents", option_map (record document) (CacheState.documents st));
     ("transcripts",
      option_map (record (fun l => JArray (map segment l))) (CacheState.transcripts st))].

(** [this.data]; [null] when the cache holds none. *)
Definition data (c : GranolaCache.t) : json :=
  match GranolaCache.data c with
  | Some d => object [("state", option_map state (CacheData.state d))]
  | None => JNull
  end.

End Encode.

(* ===================================================================== *)
(** ** A concrete host: UTC, en-GB, a fixed clock *)
(* ===================================================================== *)

(** Used to run the definitions on examples.  Its date parser accepts the
    full ISO form [YYYY-MM-DDTHH:mm:ssZ], with or without [.sss], and takes
    every other string as unrecognised; its lower-casing covers the
    letters A to Z. *)
Module UtcHost.

Definition ms_per_day : Z := 86400000.

(** Days from 1970-01-01 to the civil date [y]-[m]-[d] (proleptic
    Gregorian calendar). *)
Definition days_from_civil (y m d : Z) : Z :=
  let y' := if m <=? 2 then y - 1 else y in
  let era := y' / 400 in
  let yoe := y' - era * 400 in
  let doy := (153 * (if 2 <? m then m - 3 else m + 9) + 2) / 5 + d - 1 in
  let doe := yoe * 365 + yoe / 4 - yoe / 100 + doy in
  era * 146097 + doe - 719468.

(** The civil date ([y], [m], [d]) of a day number. *)
Definition civil_from_days (days : Z) : Z * Z * Z :=
  let z := days + 719468 in
  let era := z / 146097 in
  let doe := z - era * 146097 in
  let yoe := (doe - doe / 1460 + doe / 36524 - doe / 146096) / 365 in
  let doy := doe - (365 * yoe + yoe / 4 - yoe / 100) in
  let mp := (5 * doy + 2) / 153 in
  let d := doy - (153 * mp + 2) / 5 + 1 in
  let m := if mp <? 10 then mp + 3 else mp - 9 in
  let y := yoe + era * 400 in
  (if m <=? 2 then y + 1 else y, m, d).

Definition days_in_month (y m : Z) : Z :=
  days_from_civil (if m =? 12 then y + 1 else y) (if m =? 12 then 1 else m + 1) 1
  - days_from_civil y m 1.

(** The value of a string made of decimal digits only. *)
Fixpoint digits (s : string) (acc : Z) : option Z :=
  match s with
  | EmptyString => Some acc
  | String c r =>
      let n := Z.of_N (N_of_ascii c) in
      if (48 <=? n) && (n <=? 57) then digits r (acc * 10 + (n - 48)) else None
  end.

(** The field of [len] digits at offset [off]. *)
Definition field (s : string) (off len : nat) : option Z :=
  let f := String.substring off len s in
  if Nat.eqb (String.length f) len then digits f 0 else None.

Definition char_at (s : string) (off : nat) (c : string) : bool :=
  String.eqb (String.substring off 1 s) c.

Definition parse (s : string) : Date :=
  let n := String.length s in
  let ms :=
    if Nat.eqb n 20 then (if char_at s 19 "Z" then Some 0 else None)
    else if Nat.eqb n 24 then
      (if char_at s 19 "." && char_at s 23 "Z" then field s 20 3 else None)
    else None in
  if char_at s 4 "-" && char_at s 7 "-" && char_at s 10 "T"
     && char_at s 13 ":" && char_at s 16 ":" then
    match field s 0 4, field s 5 2, field s 8 2,
          field s 11 2, field s 14 2, field s 17 2, ms with
    | Some y, Some mo, Some d, Some h, Some mi, Some sec, Some ms =>
        if (1 <=? mo) && (mo <=? 12) && (1 <=? d) && (d <=? days_in_month y mo)
           && (h <=? 23) && (mi <=? 59) && (sec <=? 59)
        then Some (days_from_civil y mo d * ms_per_day
                   + h * 3600000 + mi * 60000 + sec * 1000 + ms)
        else None
    | _, _, _, _, _, _, _ => None
    end
  else None.

(** [n] in decimal, padded with zeros to [width] digits. *)
Fixpoint pad (width : nat) (n : Z) : string :=
  match width with
  | O => ""
  | S w => pad w (n / 10) ++ String (ascii_of_N (Z.to_N (48 + n mod 10))) ""
  end.

Definition date_part (t : Z) : string :=
  let '(y, m, d) := civil_from_days (t / ms_per_day) in
  pad 2 d ++ "/" ++ pad 2 m ++ "/" ++ pad 4 y.

Definition time_part (t : Z) : string :=
  let r := t mod ms_per_day in
  pad 2 (r / 3600000) ++ ":" ++ pad 2 (r / 60000 mod 60) ++ ":" ++ pad 2 (r / 1000 mod 60).

Definition hm_part (t : Z) : string :=
  let r := t mod ms_per_day in
  pad 2 (r / 3600000) ++ ":" ++ pad 2 (r / 60000 mod 60).

Definition iso (t : Z) : string :=
  let '(y, m, d) := civil_from_days (t / ms_per_day) in
  pad 4 y ++ "-" ++ pad 2 m ++ "-" ++ pad 2 d ++ "T" ++ time_part t
  ++ "." ++ pad 3 (t mod 1000) ++ "Z".

Definition on_valid (f : Z -> string) (d : Date) : string :=
  match d with
  | Some t => f t
  | None => "Invalid Date"
  end.

Definition lower_unit (c : ascii) : ascii :=
  let n := N_of_ascii c in
  if ((65 <=? n) && (n <=? 90))%N then ascii_of_N (n + 32) else c.

Fixpoint lower (s : string) : string :=
  match s with
  | EmptyString => EmptyString
  | String c r => String (lower_unit c) (lower r)
  end.

(** The clock: 2026-02-01T12:00:00Z. *)
Definition now : Z := 1769947200000.

(** The largest time value of a [Date]. *)
Definition max_time : Z := 8640000000000000.

Definition minus_days (t n : Z) : Date :=
  let t' := t - n * ms_per_day in
  if (- max_time <=? t') && (t' <=? max_time) then Some t' else None.

(** [path.join] for a directory without dot segments other than a
    leading [./]. *)
Definition join_path (dir file : string) : string :=
  (if String.prefix "./" dir then slice_from 2 dir else dir) ++ "/" ++ file.

Definition host : Host := {|
  Date_parse := parse;
  Date_now := now;
  Date_minusDays := minus_days;
  toLocaleString := on_valid (fun t => date_part t ++ ", " ++ time_part t);
  toLocaleDateString := on_valid date_part;
  toLocaleTimeString := on_valid time_part;
  toLocaleTimeString_hm := on_valid hm_part;
  toISOString := iso;
  toLowerCase := lower;
  toLowerCase_empty := eq_refl;
  existsSync := fun _ => false;
  path_join := join_path
|}.

End UtcHost.

(* ===================================================================== *)
(** ** Sample data *)
(* ===================================================================== *)

Module Sample.

Definition segment (start text : string) : TranscriptSegment.t :=
  TranscriptSegment.mk "seg" "doc" start start text "microphone" true.

Definition seg_hello : TranscriptSegment.t := segment "2026-01-30T10:00:05Z" "hello".
Definition seg_world : TranscriptSegment.t := segment "2026-01-30T10:00:09Z" "world".
(** Two channels speaking at the same instant. *)
Definition seg_mic : TranscriptSegment.t := segment "2026-01-30T10:00:05Z" "yes".
Definition seg_sys : TranscriptSegment.t := segment "2026-01-30T10:00:05Z" "no".

Definition named (full : string) : Person.t :=
  Person.mk None None
    (Some (Details.mk (Some (PersonInfo.mk (Some (PersonName.mk (Some full))) None)) None)).
Definition mailed (address : string) : Person.t := Person.mk None (Some address) None.
(** An attendee with neither a resolved full name nor an email. *)
Definition nobody : Person.t := Person.mk (Some "Sam") None None.

Definition document (id title created : string) (attendees : option (list Person.t))
  : Document.t :=
  Document.mk id title created created None None None None
    (option_map (fun l => People.mk None None (Some l)) attendees)
    None None None.

Definition id_sync : string := "abc12345-0000-4000-8000-000000000001".
Definition id_plan : string := "abc99999-0000-4000-8000-000000000002".

Definition doc_sync : Document.t :=
  document id_sync "Weekly Sync" "2026-01-30T10:00:00Z"
    (Some [named "Ada Lovelace"; mailed "bob@example.com"; nobody]).
Definition doc_plan : Document.t :=
  document id_plan "Roadmap planning" "2026-01-30T10:00:00Z" None.
(** Dated after the clock of [UtcHost]. *)
Definition doc_future : Document.t :=
  document "def00000-0000-4000-8000-000000000003" "Offsite" "2026-03-01T09:00:00Z" None.
Definition doc_old : Document.t :=
  document "0ld00000-0000-4000-8000-000000000004" "Kickoff" "2025-06-01T09:00:00Z" None.

Definition snapshot (docs : list Document.t)
           (transcripts : Record_ (list TranscriptSegment.t)) : GranolaCache.t :=
  GranolaCache.mk
    (Some (CacheData.mk
       (Some (CacheState.mk
          (Some (map (fun d => (Document.id d, d)) docs))
          (Some transcripts))))).

Definition cache : GranolaCache.t :=
  snapshot [doc_old; doc_sync; doc_future; doc_plan]
           [(id_sync, [seg_world; seg_hello])].

(** A top-level value whose [cache] field is an object, with a string
    where the documents mapping should be. *)
Definition outer_string_documents : Raw.json :=
  Raw.JObject
    [("cache",
      Raw.JObject [("state", Raw.JObject [("documents", Raw.JString "ab")])])].

(** A top-level value whose [cache] field is [null], the state being at
    the top level. *)
Definition outer_flat : Raw.json :=
  Raw.JObject
    [("cache", Raw.JNull);
     ("state", Raw.JObject [("documents", Raw.JObject [("d1", Raw.JObject [])])])].

(** A top-level value whose [cache] field is a JSON-encoded string. *)
Definition outer_encoded : Raw.json :=
  Raw.JObject [("cache", Raw.JString "{}")].

(** [JSON.parse] on the one text the examples decode, the empty object. *)
Definition parse_empty_object (s : string) : option Raw.json :=
  if String.eqb s "{}" then Some (Raw.JObject []) else None.

End Sample.

(* ===================================================================== *)
(** ** The vocabulary of the specification *)
(* ===================================================================== *)

Module Spec.

(** [a] is not later than [b], both having a valid time. *)
Definition time_le {A} (key : A -> option Z) (a b : A) : Prop :=
  match key a, key b with
  | Some x, Some y => x <= y
  | _, _ => False
  end.

(** [a] is strictly earlier than [b], both having a valid time. *)
Definition time_lt {A} (key : A -> option Z) (a b : A) : Prop :=
  match key a, key b with
  | Some x, Some y => x < y
  | _, _ => False
  end.

(** Every element has a valid time. *)
Definition all_valid {A} (key : A -> option Z) (l : list A) : Prop :=
  Forall (fun a => key a <> None) l.

(** Ascending by time: each element is not later than those after it. *)
Definition ascending {A} (key : A -> option Z) (l : list A) : Prop :=
  StronglySorted (time_le key) l.

(** Descending by time: each element is not earlier than those after it. *)
Definition descending {A} (key : A -> option Z) (l : list A) : Prop :=
  StronglySorted (fun a b => time_le key b a) l.

(** Strictly descending: each element is later than those after it. *)
Definition strictly_descending {A} (key : A -> option Z) (l : list A) : Prop :=
  StronglySorted (fun a b => time_lt key b a) l.

(** The time of [a] is at or after [cutoff] (inclusive), both valid. *)
Definition at_or_after {A} (key : A -> option Z) (cutoff : Date) (a : A) : bool :=
  match key a, cutoff with
  | Some t, Some c => c <=? t
  | _, _ => false
  end.

(** The time of [a] is exactly [t]. *)
Definition at_time {A} (key : A -> option Z) (t : Z) (a : A) : bool :=
  match key a with
  | Some x => x =? t
  | None => false
  end.

(** A property that is absent or holds the empty string: both are
    falsy. *)
Definition blank (v : option string) : Prop := v = None \/ v = Some "".

(** A field that is missing or malformed: it holds something that is
    not a mapping ([null], a boolean, a number, a string or an array). *)
Definition malformed (field : option Raw.json) : bool :=
  match field with
  | Some (Raw.JObject _) => false
  | _ => true
  end.

(** A field that is missing, or holds [null], a boolean, a number or
    the empty string: nothing in it can be enumerated or looked up. *)
Definition nothing_inside (field : option Raw.json) : bool :=
  match field with
  | None | Some Raw.JNull | Some (Raw.JBool _) | Some (Raw.JNumber _) => true
  | Some (Raw.JString s) => negb (truthy s)
  | Some (Raw.JArray _) | Some (Raw.JObject _) => false
  end.


(** Two units that are the same letter up to case, among A to Z. *)
Definition is_upper (c : ascii) : Prop := (65 <= N_of_ascii c <= 90)%N.
Definition same_letter (a b : ascii) : Prop :=
  a = b
  \/ (is_upper a /\ N_of_ascii b = (N_of_ascii a + 32)%N)
  \/ (is_upper b /\ N_of_ascii a = (N_of_ascii b + 32)%N).

(** Two strings that differ only by the case of their letters. *)
Fixpoint case_variant (s s' : string) : Prop :=
  match s, s' with
  | EmptyString, EmptyString => True
  | String a r, String b r' => same_letter a b /\ case_variant r r'
  | _, _ => False
  end.

(** How an ambiguous prefix lists one candidate: the first twelve units
    of its identifier, then its title. *)
Definition candidate_line (m : Document.t) : string :=
  "  " ++ slice0 12 (Document.id m) ++ " - " ++ Document.title m.

(** The error message for an ambiguous prefix. *)
Definition ambiguous_message (id : string) (candidates : list Document.t) : string :=
  "Multiple meetings match " ++ dq ++ id ++ dq ++ ". Be more specific:" ++ nl ++
  join nl (map candidate_line candidates).

(** The participant list as the specification words it: the resolved
    full name if present, else the email if present, else nothing. *)
Definition participant (a : Person.t) : list string :=
  match js_or (resolved_fullName a) (Person.email a) with
  | Some s => if truthy s then [s] else []
  | None => []
  end.
Definition participants (l : list Person.t) : list string := flat_map participant l.

(** The short name of an attendee in the list of meetings: the resolved
    full name if there is one, else what stands before the at sign of
    the email if that is not empty, else nothing. *)
Definition short_name (a : Person.t) : list string :=
  match resolved_fullName a with
  | Some n => if truthy n then [n] else
                match Person.email a with
                | Some e => if truthy (split_head "@" e) then [split_head "@" e] else []
                | None => []
                end
  | None =>
      match Person.email a with
      | Some e => if truthy (split_head "@" e) then [split_head "@" e] else []
      | None => []
      end
  end.
Definition short_names (l : list Person.t) : list string := flat_map short_name l.

End Spec.

(* ===================================================================== *)
(** ** Observations on a run *)
(* ===================================================================== *)

Module Runs.

(** An event on the console, as opposed to one on the file system. *)
Definition is_console (e : Event) : bool :=
  match e with
  | ConsoleLog _ | ConsoleError _ => true
  | MkdirSync _ | WriteFileSync _ _ => false
  end.

(** An event on the standard output. *)
Definition is_log (e : Event) : bool :=
  match e with
  | ConsoleLog _ => true
  | _ => false
  end.

(** Every event of the run satisfies [Pe], and when the run ends in
    [process.exit(code)] the code satisfies [Pc]. *)
Definition keeps {A} (Pe : Event -> Prop) (Pc : Z -> Prop) (p : Proc A) : Prop :=
  Forall Pe (fst p) /\ match snd p with Exited code => Pc code | _ => True end.


(** Every double quote of the string comes right after a backslash;
    [after_backslash] tells that the unit before the string is one. *)
Fixpoint quotes_escaped (after_backslash : bool) (s : string) : bool :=
  match s with
  | EmptyString => true
  | String c r =>
      (negb (Ascii.eqb c "034") || after_backslash)
      && quotes_escaped (Ascii.eqb c "\") r
  end.

(** The number of double quotes of a string. *)
Fixpoint count_quotes (s : string) : nat :=
  match s with
  | EmptyString => O
  | String c r => ((if Ascii.eqb c "034" then 1 else 0) + count_quotes r)%nat
  end.

(** An integer that a number of the engine holds exactly, a double: up
    to 2^53 in absolute value.  [parseInt] reads the decimal digits of
    such an integer without rounding, and [String] prints it in decimal
    digits. *)
Definition exact (n : Z) : Prop := Z.abs n <= 9007199254740992.

(** The number written by the decimal digits [d], read after digits
    worth [acc]. *)
Fixpoint decimal_value (acc : Z) (d : Decimal.uint) : Z :=
  match d with
  | Decimal.Nil => acc
  | Decimal.D0 l => decimal_value (acc * 10 + 0) l
  | Decimal.D1 l => decimal_value (acc * 10 + 1) l
  | Decimal.D2 l => decimal_value (acc * 10 + 2) l
  | Decimal.D3 l => decimal_value (acc * 10 + 3) l
  | Decimal.D4 l => decimal_value (acc * 10 + 4) l
  | Decimal.D5 l => decimal_value (acc * 10 + 5) l
  | Decimal.D6 l => decimal_value (acc * 10 + 6) l
  | Decimal.D7 l => decimal_value (acc * 10 + 7) l
  | Decimal.D8 l => decimal_value (acc * 10 + 8) l
  | Decimal.D9 l => decimal_value (acc * 10 + 9) l
  end.

End Runs.

(** More sample data. *)
Module Fixture.

(** A meeting whose creation timestamp is not a date. *)
Definition doc_undated : Document.t :=
  Sample.document "fff00000-0000-4000-8000-000000000005" "Retro: Q1 / Q2!" "yesterday" None.

(** A meeting with nothing to search in. *)
Definition doc_blank : Document.t :=
  Sample.document "eee00000-0000-4000-8000-000000000006" "" "2026-01-31T08:00:00Z" None.

Definition cache : GranolaCache.t :=
  Sample.snapshot [Sample.doc_sync; doc_undated; doc_blank]
                  [(Sample.id_sync, [Sample.seg_world; Sample.seg_hello])].

(** The text of a cache file in the double-encoded layout and the text
    of its [cache] field; what they stand for is fixed by [parse]. *)
Definition file_text : string := "outer".
Definition cache_text : string := "inner".

(** [JSON.parse] on the two texts above, for the snapshot [c]. *)
Definition parse (c : GranolaCache.t) (s : string) : option Raw.json :=
  if String.eqb s file_text
  then Some (Raw.JObject [("cache", Raw.JString cache_text); ("version", Raw.JNumber 3)])
  else if String.eqb s cache_text then Some (Encode.data c)
  else None.

End Fixture.

(* ===================================================================== *)
(** * Properties *)
(* ===================================================================== *)

(** ** Strings *)

Lemma prefix_empty (s : string) : String.prefix "" s = true.
Proof. destruct s; reflexivity. Qed.

Lemma includes_empty (s : string) : includes s "" = true.
Proof. destruct s; reflexivity. Qed.

Lemma truthy_true_iff (s : string) : truthy s = true <-> s <> "".
Proof.
  unfold truthy. destruct (String.eqb_spec s ""); simpl; split; congruence.
Qed.

Lemma js_or_str_truthy (s d : string) : s <> "" -> js_or_str (Some s) d = s.
Proof.
  intros Hs. apply truthy_true_iff in Hs. unfold js_or_str, js_or. now rewrite Hs.
Qed.

(** ** The process monad *)

Lemma bind_ret_l {A B} (a : A) (k : A -> Proc B) : bind (ret a) k = k a.
Proof. unfold bind, ret. destruct (k a); reflexivity. Qed.

Lemma bind_exit {A B} (tr : list Event) (code : Z) (k : A -> Proc B) :
  bind (tr, Exited code) k = (tr, Exited code).
Proof. reflexivity. Qed.

(** ** Array.prototype.sort *)

Section SortFacts.
Context {A : Type}.
Variable comparefn : A -> A -> option Z.

Lemma sort_insert_perm (x : A) (l : list A) :
  Permutation (sort_insert comparefn x l) (x :: l).
Proof.
  induction l as [|y r IH]; simpl.
  - apply Permutation_refl.
  - destruct (after comparefn x y).
    + eapply Permutation_trans; [apply perm_skip, IH | apply perm_swap].
    + apply Permutation_refl.
Qed.

(** The sort permutes the array: nothing is lost, nothing is added. *)
Lemma Array_sort_perm (l : list A) : Permutation (Array_sort comparefn l) l.
Proof.
  induction l as [|x r IH]; simpl.
  - constructor.
  - eapply Permutation_trans; [apply sort_insert_perm | now apply perm_skip].
Qed.

Lemma Array_sort_length (l : list A) :
  List.length (Array_sort comparefn l) = List.length l.
Proof. apply Permutation_length, Array_sort_perm. Qed.

Lemma Array_sort_In (l : list A) (x : A) : In x (Array_sort comparefn l) <-> In x l.
Proof.
  split; apply Permutation_in; [| apply Permutation_sym]; apply Array_sort_perm.
Qed.

(** Stability: elements the comparator never orders among themselves
    (those selected by [p]) keep their relative order. *)
Lemma sort_insert_filter_in (p : A -> bool) (x : A) (l : list A) :
  p x = true ->
  (forall y, In y l -> p y = true -> after comparefn x y = false) ->
  filter p (sort_insert comparefn x l) = x :: filter p l.
Proof.
  intros Hx. induction l as [|y r IH]; intros Htie; simpl.
  - now rewrite Hx.
  - destruct (after comparefn x y) eqn:E; simpl.
    + destruct (p y) eqn:Py.
      * rewrite (Htie y) in E by (auto; now left). discriminate.
      * apply IH. intros z Hz. apply Htie. now right.
    + now rewrite Hx.
Qed.

Lemma sort_insert_filter_out (p : A -> bool) (x : A) (l : list A) :
  p x = false -> filter p (sort_insert comparefn x l) = filter p l.
Proof.
  intros Hx. induction l as [|y r IH]; simpl.
  - now rewrite Hx.
  - destruct (after comparefn x y); simpl.
    + now rewrite IH.
    + now rewrite Hx.
Qed.

Lemma Array_sort_stable (p : A -> bool) (l : list A) :
  (forall a b, p a = true -> p b = true -> after comparefn a b = false) ->
  filter p (Array_sort comparefn l) = filter p l.
Proof.
  intros Htie. induction l as [|x r IH]; simpl; [reflexivity |].
  destruct (p x) eqn:Px.
  - rewrite sort_insert_filter_in; auto. now rewrite IH.
  - rewrite sort_insert_filter_out; auto.
Qed.

(** On elements where the comparator is a consistent order [le] (every
    element satisfies [ok]), the result is sorted. *)
Variable ok : A -> Prop.
Variable le : A -> A -> Prop.
Hypothesis le_trans : forall a b c, le a b -> le b c -> le a c.
Hypothesis not_after_le : forall a b, ok a -> ok b -> after comparefn a b = false -> le a b.
Hypothesis after_le : forall a b, ok a -> ok b -> after comparefn a b = true -> le b a.

Lemma sort_insert_sorted (x : A) (l : list A) :
  ok x -> Forall ok l -> StronglySorted le l ->
  StronglySorted le (sort_insert comparefn x l).
Proof.
  intros Hx Hok Hs. induction Hs as [|y r Hr IH Hy]; simpl.
  - repeat constructor.
  - inversion Hok as [|? ? Hoky Hokr]; subst.
    destruct (after comparefn x y) eqn:E.
    + constructor; [now apply IH |].
      apply (Permutation_Forall (Permutation_sym (sort_insert_perm x r))).
      constructor; [now apply after_le | exact Hy].
    + assert (Hxy : le x y) by now apply not_after_le.
      constructor; [now constructor |].
      constructor; [exact Hxy |].
      eapply Forall_impl; [| exact Hy]. intros z Hz. now apply le_trans with y.
Qed.

Lemma Array_sort_sorted (l : list A) :
  Forall ok l -> StronglySorted le (Array_sort comparefn l).
Proof.
  induction l as [|x r IH]; intros Hok; simpl.
  - constructor.
  - inversion Hok; subst. apply sort_insert_sorted; auto.
    apply (Permutation_Forall (Permutation_sym (Array_sort_perm r))); assumption.
Qed.

End SortFacts.

(** Two sorted arrangements of the same elements show the same thing
    through a view [g] that does not tell tied elements apart. *)
Section SortedViews.
Context {A B : Type}.
Variable le : A -> A -> Prop.
Variable g : A -> B.

Lemma StronglySorted_remove (l1 : list A) (x : A) (l2 : list A) :
  StronglySorted le (l1 ++ x :: l2) -> StronglySorted le (l1 ++ l2).
Proof.
  induction l1 as [|y r IH]; simpl; intros Hs.
  - now inversion Hs.
  - inversion Hs as [|? ? Hr Hy]; subst. constructor; [now apply IH |].
    rewrite Forall_app in *. destruct Hy as [H1 H2]. split; [exact H1 |].
    now inversion H2.
Qed.

Lemma map_middle_head (l1 : list A) (x : A) (l2 : list A) :
  (forall z, In z l1 -> g z = g x) ->
  map g (l1 ++ x :: l2) = g x :: map g (l1 ++ l2).
Proof.
  induction l1 as [|y r IH]; simpl; intros Hz.
  - reflexivity.
  - rewrite IH by (intros z Hin; apply Hz; now right).
    rewrite (Hz y) by now left. reflexivity.
Qed.

Lemma sorted_views_agree (l l' : list A) :
  StronglySorted le l -> StronglySorted le l' -> Permutation l l' ->
  (forall a b, In a l -> In b l -> le a b -> le b a -> g a = g b) ->
  map g l = map g l'.
Proof.
  intros Hs. revert l'. induction Hs as [|x r Hr IH Hx]; intros l' Hs' Hp Htie.
  - apply Permutation_nil in Hp. now subst.
  - assert (Hin : In x l') by (eapply Permutation_in; [exact Hp | now left]).
    apply in_split in Hin. destruct Hin as [l1 [l2 ->]].
    apply Permutation_cons_app_inv in Hp.
    rewrite map_middle_head.
    + simpl. f_equal. apply IH.
      * now apply StronglySorted_remove in Hs'.
      * exact Hp.
      * intros a b Ha Hb. apply Htie; now right.
    + intros z Hz.
      assert (Hzr : In z r).
      { eapply Permutation_in; [apply Permutation_sym, Hp |].
        apply in_or_app. now left. }
      symmetry. apply Htie; [now left | now right | |].
      * rewrite Forall_forall in Hx. now apply Hx.
      * clear - Hs' Hz. induction l1 as [|y l1 IHl]; [destruct Hz |].
        simpl in Hs'. inversion Hs' as [|? ? Hr Hy]; subst.
        destruct Hz as [-> | Hz]; [| now apply IHl].
        rewrite Forall_app in Hy. destruct Hy as [_ Hy]. now inversion Hy.
Qed.

End SortedViews.

(** ** formatTranscript *)

Section TranscriptFacts.
Context `{Host}.

Lemma by_start_consistent_not_after (a b : TranscriptSegment.t) :
  start_time a <> None -> start_time b <> None ->
  after by_start a b = false -> Spec.time_le start_time a b.
Proof.
  unfold after, by_start, num_sub, Spec.time_le.
  destruct (start_time a), (start_time b); try congruence.
  intros _ _ E. apply Z.ltb_ge in E. lia.
Qed.

Lemma by_start_consistent_after (a b : TranscriptSegment.t) :
  start_time a <> None -> start_time b <> None ->
  after by_start a b = true -> Spec.time_le start_time b a.
Proof.
  unfold after, by_start, num_sub, Spec.time_le.
  destruct (start_time a), (start_time b); try congruence.
  intros _ _ E. apply Z.ltb_lt in E. lia.
Qed.

Lemma time_le_trans {A} (key : A -> option Z) (a b c : A) :
  Spec.time_le key a b -> Spec.time_le key b c -> Spec.time_le key a c.
Proof.
  unfold Spec.time_le. destruct (key a), (key b), (key c); try tauto. lia.
Qed.

Lemma sort_by_start_ascending (segments : list TranscriptSegment.t) :
  Spec.all_valid start_time segments ->
  Spec.ascending start_time (Array_sort by_start segments).
Proof.
  intros Hv.
  apply (Array_sort_sorted by_start (fun s => start_time s <> None)); auto.
  - intros a b c. apply time_le_trans.
  - apply by_start_consistent_not_after.
  - apply by_start_consistent_after.
Qed.

(** Segments that start at the same instant and carry the same text are
    rendered by the same line. *)
Lemma transcript_line_tie (a b : TranscriptSegment.t) :
  Spec.time_le start_time a b -> Spec.time_le start_time b a ->
  TranscriptSegment.text a = TranscriptSegment.text b ->
  transcript_line a = transcript_line b.
Proof.
  unfold Spec.time_le, transcript_line, start_time.
  destruct (new_Date (TranscriptSegment.start_timestamp a)) as [x|] eqn:Ea;
    destruct (new_Date (TranscriptSegment.start_timestamp b)) as [y|] eqn:Eb;
    try tauto.
  intros H1 H2 ->. assert (x = y) by lia. subst. reflexivity.
Qed.

Lemma formatTranscript_nonempty (segments : list TranscriptSegment.t) :
  segments <> [] ->
  formatTranscript segments =
  (join nl (map transcript_line (Array_sort by_start segments)),
   Array_sort by_start segments).
Proof.
  intros Hne. unfold formatTranscript.
  destruct segments as [|s r]; [congruence |]. reflexivity.
Qed.

(** C9, as the code has it.  On the empty sequence the result is the
    sentinel "No transcript available.".  On a non-empty one it is one
    line [[local time] text] per segment, joined by newlines.  When every
    start timestamp is a valid date the segments are taken in ascending
    order of start time, those that start at the same instant in their
    input order: the sort is stable and compares start times only.  Two
    arrangements of the same segments give the same text provided the
    timestamps are valid and segments that start at the same instant
    carry the same text.  (With a timestamp that is not a date the
    comparator returns [NaN] and the order is left to the engine: only
    the lines, one per segment, are stated then.) *)
Theorem formatTranscript_chronological :
  fst (formatTranscript []) = "No transcript available."
  /\ (forall segments, segments <> [] ->
        exists sorted,
          fst (formatTranscript segments) = join nl (map transcript_line sorted)
          /\ Permutation sorted segments
          /\ List.length (map transcript_line sorted) = List.length segments
          /\ (Spec.all_valid start_time segments ->
              Spec.ascending start_time sorted
              /\ (forall t, filter (Spec.at_time start_time t) sorted
                            = filter (Spec.at_time start_time t) segments)))
  /\ (forall l1 l2,
        Permutation l1 l2 ->
        Spec.all_valid start_time l1 ->
        (forall a b, In a l1 -> In b l1 -> start_time a = start_time b ->
                     TranscriptSegment.text a = TranscriptSegment.text b) ->
        fst (formatTranscript l1) = fst (formatTranscript l2)).
Proof.
  split; [reflexivity |]. split.
  - intros segments Hne. exists (Array_sort by_start segments).
    rewrite formatTranscript_nonempty by assumption. cbn [fst].
    split; [reflexivity |]. split; [apply Array_sort_perm |].
    split; [now rewrite length_map, Array_sort_length |].
    intros Hv. split; [now apply sort_by_start_ascending |].
    intros t. apply Array_sort_stable.
    intros a b. unfold Spec.at_time, after, by_start, num_sub.
    destruct (start_time a), (start_time b); try discriminate.
    intros Ea Eb. apply Z.eqb_eq in Ea, Eb. subst. now rewrite Z.sub_diag.
  - intros l1 l2 Hp Hv Htie.
    destruct l1 as [|s1 r1].
    { apply Permutation_nil in Hp. now subst. }
    assert (Hne2 : l2 <> []).
    { intros ->. apply Permutation_sym, Permutation_nil in Hp. discriminate. }
    rewrite !formatTranscript_nonempty by (assumption || discriminate). cbn [fst].
    f_equal.
    apply (sorted_views_agree (Spec.time_le start_time)).
    + now apply sort_by_start_ascending.
    + apply sort_by_start_ascending.
      unfold Spec.all_valid in *. eapply Permutation_Forall; eassumption.
    + eapply Permutation_trans; [apply Array_sort_perm |].
      eapply Permutation_trans; [exact Hp |].
      apply Permutation_sym, Array_sort_perm.
    + intros a b Ha Hb Hab Hba.
      apply Array_sort_In in Ha, Hb.
      apply transcript_line_tie; auto.
      apply Htie; auto.
      unfold Spec.time_le in Hab, Hba.
      destruct (start_time a), (start_time b); try tauto. f_equal. lia.
Qed.

(** The caller's array after the call, in general: the sorted one. *)
Lemma formatTranscript_array_after (segments : list TranscriptSegment.t) :
  snd (formatTranscript segments) = Array_sort by_start segments.
Proof.
  destruct segments as [|s r]; reflexivity.
Qed.

End TranscriptFacts.

(** C9 as stated fails: the two segments [seg_mic] and [seg_sys] start at
    the same instant with different texts, and the output follows the
    order they are fed in. *)
Lemma formatTranscript_tied_segments_keep_input_order :
  Permutation [Sample.seg_mic; Sample.seg_sys] (rev [Sample.seg_mic; Sample.seg_sys])
  /\ fst (formatTranscript (H := UtcHost.host) [Sample.seg_mic; Sample.seg_sys])
     <> fst (formatTranscript (H := UtcHost.host) (rev [Sample.seg_mic; Sample.seg_sys])).
Proof.
  split; [apply Permutation_rev |]. vm_compute. discriminate.
Qed.

(** A run of [formatTranscript_chronological]: the transcript stored for
    the sample meeting, and the same two segments the other way round. *)
Lemma formatTranscript_chronological_witness :
  fst (formatTranscript (H := UtcHost.host) [Sample.seg_world; Sample.seg_hello])
  = fst (formatTranscript (H := UtcHost.host) [Sample.seg_hello; Sample.seg_world])
  /\ exists sorted,
       fst (formatTranscript (H := UtcHost.host) [Sample.seg_world; Sample.seg_hello])
       = join nl (map (transcript_line (H := UtcHost.host)) sorted)
       /\ Spec.ascending (start_time (H := UtcHost.host)) sorted.
Proof.
  pose proof (formatTranscript_chronological (H := UtcHost.host)) as [_ [Hsort Hperm]].
  split.
  - apply Hperm.
    + apply perm_swap.
    + repeat constructor; vm_compute; discriminate.
    + intros a b [<- | [<- | []]] [<- | [<- | []]]; vm_compute; congruence.
  - destruct (Hsort [Sample.seg_world; Sample.seg_hello]) as [sorted [E [_ [_ Hasc]]]].
    + discriminate.
    + exists sorted. split; [exact E |].
      apply Hasc. repeat constructor; vm_compute; discriminate.
Defined.

(** C2 at a failing input: the caller passes the array
    [[seg_world; seg_hello]] and holds [[seg_hello; seg_world]] after the
    call. *)
Theorem formatTranscript_reorders_the_callers_array :
  snd (formatTranscript (H := UtcHost.host) [Sample.seg_world; Sample.seg_hello])
  = [Sample.seg_hello; Sample.seg_world]
  /\ snd (formatTranscript (H := UtcHost.host) [Sample.seg_world; Sample.seg_hello])
     <> [Sample.seg_world; Sample.seg_hello].
Proof.
  split; [reflexivity |]. vm_compute. discriminate.
Qed.

(** ** getRecentDocuments *)

Section RecentFacts.
Context `{Host}.

Lemma Date_geb_at_or_after (cutoff : Date) (d : Document.t) :
  Date_geb (new_Date (Document.created_at d)) cutoff
  = Spec.at_or_after created_time cutoff d.
Proof. reflexivity. Qed.

(** C4, as the code has it.  [getRecentDocuments(days)] returns exactly
    the documents of the snapshot whose creation timestamp is a valid date
    at or after the cutoff, the current time moved [days] calendar days
    back (inclusive lower bound, and no upper bound: a document dated
    after the current instant is returned too).  The list is in
    descending order of creation time, not strictly: documents created at
    the same instant are all returned, in the order the snapshot
    enumerates them. *)
Theorem getRecentDocuments_window (c : GranolaCache.t) (days : Z) :
  let cutoff := Date_minusDays Date_now days in
  let recent := getRecentDocuments c (Some days) in
  (forall d, In d recent <->
             In d (getDocuments c)
             /\ exists t cut, created_time d = Some t /\ cutoff = Some cut /\ cut <= t)
  /\ Permutation recent (filter (Spec.at_or_after created_time cutoff) (getDocuments c))
  /\ Spec.descending created_time recent
  /\ (forall t, filter (Spec.at_time created_time t) recent
                = filter (Spec.at_time created_time t)
                    (filter (Spec.at_or_after created_time cutoff) (getDocuments c))).
Proof.
  intros cutoff recent. unfold recent, getRecentDocuments. fold cutoff.
  set (cmp := fun a b : Document.t => num_sub (created_time b) (created_time a)).
  assert (Hfilter :
    filter (fun doc => Date_geb (new_Date (Document.created_at doc)) cutoff) (getDocuments c)
    = filter (Spec.at_or_after created_time cutoff) (getDocuments c)).
  { apply filter_ext. intros d. apply Date_geb_at_or_after. }
  rewrite Hfilter. clear Hfilter.
  set (window := filter (Spec.at_or_after created_time cutoff) (getDocuments c)).
  split; [| split; [| split]].
  - intros d. rewrite Array_sort_In. unfold window. rewrite filter_In.
    unfold Spec.at_or_after.
    split.
    + intros [Hin Hw]. split; [exact Hin |].
      destruct (created_time d) as [t|]; [| discriminate].
      destruct cutoff as [cut|]; [| discriminate].
      exists t, cut. repeat split. now apply Z.leb_le.
    + intros [Hin [t [cut [-> [-> Hle]]]]]. split; [exact Hin |]. now apply Z.leb_le.
  - apply Array_sort_perm.
  - apply (Array_sort_sorted cmp (fun d => created_time d <> None)).
    + intros a b x Hab Hbx. eapply time_le_trans; eassumption.
    + intros a b Ha Hb. unfold after, cmp, num_sub, Spec.time_le.
      destruct (created_time a), (created_time b); try congruence.
      intros E. apply Z.ltb_ge in E. lia.
    + intros a b Ha Hb. unfold after, cmp, num_sub, Spec.time_le.
      destruct (created_time a), (created_time b); try congruence.
      intros E. apply Z.ltb_lt in E. lia.
    + unfold window. apply Forall_forall. intros d Hd. apply filter_In in Hd.
      destruct Hd as [_ Hd]. unfold Spec.at_or_after in Hd.
      destruct (created_time d); [discriminate | discriminate Hd].
  - intros t. apply Array_sort_stable.
    intros a b. unfold Spec.at_time, after, cmp, num_sub.
    destruct (created_time a), (created_time b); try discriminate.
    intros Ea Eb. apply Z.eqb_eq in Ea, Eb. subst. now rewrite Z.sub_diag.
Qed.

End RecentFacts.

(** C4 as stated fails twice on the sample snapshot, seven days back from
    2026-02-01T12:00:00Z: "Weekly Sync" and "Roadmap planning" were
    created at the same instant and are both returned, so the list is not
    strictly descending; and "Offsite", dated a month after the current
    instant, is returned as well. *)
Lemma getRecentDocuments_not_strict_no_upper_bound :
  getRecentDocuments (H := UtcHost.host) Sample.cache (Some 7)
  = [Sample.doc_future; Sample.doc_sync; Sample.doc_plan]
  /\ ~ Spec.strictly_descending (created_time (H := UtcHost.host))
         (getRecentDocuments (H := UtcHost.host) Sample.cache (Some 7))
  /\ exists t, created_time (H := UtcHost.host) Sample.doc_future = Some t
               /\ Date_now (Host := UtcHost.host) < t.
Proof.
  split; [reflexivity |]. split.
  - change (getRecentDocuments (H := UtcHost.host) Sample.cache (Some 7))
      with [Sample.doc_future; Sample.doc_sync; Sample.doc_plan].
    intros Hs. inversion Hs as [|? ? Htail _]; subst.
    inversion Htail as [|? ? _ Hall]; subst.
    inversion Hall as [|? ? Hlt _]; subst.
    vm_compute in Hlt. discriminate.
  - eexists. split; [vm_compute; reflexivity | reflexivity].
Qed.

(** ** formatDocument *)

Section DocumentFacts.
Context `{Host}.

Lemma attendee_name_truthy (a : Person.t) : truthy (attendee_name a) = true.
Proof.
  assert (Hemail : truthy (js_or_str (Person.email a) "Unknown") = true).
  { unfold js_or_str, js_or. destruct (Person.email a) as [e|]; [| reflexivity].
    destruct (truthy e) eqn:Ee; [exact Ee | reflexivity]. }
  unfold attendee_name.
  destruct (resolved_fullName a) as [s|]; [| exact Hemail].
  unfold js_or at 1. destruct (truthy s) eqn:E; [| exact Hemail].
  unfold js_or_str, js_or. now rewrite E.
Qed.

(** [filter(Boolean)] removes nobody: the callback never yields an empty
    string. *)
Lemma attendee_names_all (l : list Person.t) :
  attendee_names (Some l) = map attendee_name l.
Proof.
  unfold attendee_names. induction l as [|a r IH]; simpl; [reflexivity |].
  now rewrite attendee_name_truthy, IH.
Qed.

Lemma js_or_blank (v w : option string) : Spec.blank v -> js_or v w = w.
Proof. intros [-> | ->]; reflexivity. Qed.

(** C3, as the code has it.  When the document has a non-empty attendee
    list, [formatDocument] prints one participant line that names every
    attendee, in order: by the resolved full name if there is one, else
    by the email if there is one, else by the placeholder "Unknown".  No
    attendee is dropped. *)
Theorem formatDocument_participants
  (doc : Document.t) (people : People.t) (l : list Person.t) (includeNotes : bool) :
  Document.people doc = Some people ->
  People.attendees people = Some l ->
  l <> [] ->
  In ("**Participants:** " ++ join ", " (map attendee_name l))
     (formatDocument_lines doc includeNotes)
  /\ List.length (attendee_names (Some l)) = List.length l
  /\ (forall a s, resolved_fullName a = Some s -> s <> "" -> attendee_name a = s)
  /\ (forall a e, Spec.blank (resolved_fullName a) -> Person.email a = Some e -> e <> "" ->
                  attendee_name a = e)
  /\ (forall a, Spec.blank (resolved_fullName a) -> Spec.blank (Person.email a) ->
                attendee_name a = "Unknown").
Proof.
  intros Hp Ha Hne. split; [| split; [| split; [| split]]].
  - unfold formatDocument_lines. rewrite Hp, Ha, attendee_names_all.
    apply in_or_app. right. apply in_or_app. left.
    destruct l as [|a r]; [congruence |]. simpl. now left.
  - now rewrite attendee_names_all, length_map.
  - intros a s Hs Hnz. unfold attendee_name, js_or. rewrite Hs.
    apply truthy_true_iff in Hnz. rewrite Hnz.
    unfold js_or_str, js_or. now rewrite Hnz.
  - intros a e Hb He Hnz. unfold attendee_name. rewrite js_or_blank by assumption.
    rewrite He. now apply js_or_str_truthy.
  - intros a Hb1 Hb2. unfold attendee_name. rewrite js_or_blank by assumption.
    destruct Hb2 as [-> | ->]; reflexivity.
Qed.

End DocumentFacts.

(** C3 as stated fails: the third attendee of "Weekly Sync" has neither a
    resolved full name nor an email, and is printed as "Unknown" where the
    specification drops it. *)
Lemma formatDocument_prints_placeholder :
  In "**Participants:** Ada Lovelace, bob@example.com, Unknown"
     (formatDocument_lines (H := UtcHost.host) Sample.doc_sync false)
  /\ resolved_fullName Sample.nobody = None
  /\ Person.email Sample.nobody = None
  /\ attendee_names (doc_attendees Sample.doc_sync)
     <> Spec.participants [Sample.named "Ada Lovelace"; Sample.mailed "bob@example.com";
                           Sample.nobody].
Proof.
  split; [| split; [| split]]; try reflexivity.
  - vm_compute. tauto.
  - vm_compute. discriminate.
Qed.

(** A run of [formatDocument_participants] on "Weekly Sync". *)
Lemma formatDocument_participants_witness :
  In ("**Participants:** "
      ++ join ", " (map attendee_name
                      [Sample.named "Ada Lovelace"; Sample.mailed "bob@example.com";
                       Sample.nobody]))
     (formatDocument_lines (H := UtcHost.host) Sample.doc_sync true).
Proof.
  refine (proj1 (formatDocument_participants (H := UtcHost.host) Sample.doc_sync
                   _ _ true eq_refl eq_refl _)).
  discriminate.
Defined.

(** ** getTranscript *)


Lemma Record_get_In {V} (rec : Record_ V) (key : string) (v : V) :
  Record_get rec key = Some v -> In (key, v) rec.
Proof.
  induction rec as [|[k w] r IH]; simpl; [discriminate |].
  destruct (String.eqb_spec k key) as [-> | _].
  - intros [= ->]. now left.
  - intros Hg. right. now apply IH.
Qed.

(** Where the two forms of the accessors agree: on a key that names no
    member of [Object.prototype], and on a key that is stored. *)
Lemma Record_member_plain {V} (rec : Record_ V) (key : string) :
  inherited key = false ->
  Record_member rec key
  = match Record_get rec key with Some v => Own v | None => Missing end.
Proof.
  intros Hk. unfold Record_member. now rewrite Hk.
Qed.

Lemma getTranscript_value_plain (c : GranolaCache.t) (documentId : string) :
  inherited documentId = false ->
  getTranscript_value c documentId = inl (getTranscript c documentId).
Proof.
  intros Hk. unfold getTranscript_value, getTranscript.
  destruct (cache_transcripts c) as [ts|]; [| reflexivity].
  rewrite Record_member_plain by assumption.
  now destruct (Record_get ts documentId).
Qed.

Lemma getDocument_value_plain (c : GranolaCache.t) (id : string) :
  inherited id = false ->
  getDocument_value c id
  = match getDocument c id with Some d => Own d | None => Missing end.
Proof.
  intros Hk. unfold getDocument_value, getDocument.
  destruct (cache_documents c) as [docs|]; [| reflexivity].
  now apply Record_member_plain.
Qed.

(** The names of the inherited members are shorter than an identifier
    the dispatcher looks up by [getDocument]. *)
Lemma inherited_short (key : string) :
  inherited key = true -> (String.length key < 36)%nat.
Proof.
  unfold inherited, Object_prototype_names. cbn [existsb].
  rewrite !orb_true_iff.
  intros Hk.
  repeat (destruct Hk as [Hk | Hk];
          [apply String.eqb_eq in Hk; subst key; cbn [String.length]; lia |]).
  discriminate.
Qed.

Lemma getDocument_value_long (c : GranolaCache.t) (id : string) :
  (36 <= String.length id)%nat ->
  getDocument_value c id
  = match getDocument c id with Some d => Own d | None => Missing end.
Proof.
  intros Hlen. apply getDocument_value_plain.
  destruct (inherited id) eqn:E; [| reflexivity].
  apply inherited_short in E. lia.
Qed.




(** ** searchDocuments *)

Section SearchFacts.
Context `{Host}.

Lemma search_matches_empty (doc : Document.t) : search_matches "" doc = true.
Proof. unfold search_matches. now rewrite includes_empty. Qed.

Lemma filter_all {A} (f : A -> bool) (l : list A) :
  (forall x, f x = true) -> filter f l = l.
Proof.
  intros Hf. induction l as [|x r IH]; simpl; [reflexivity |].
  now rewrite Hf, IH.
Qed.

(** C7.  The search is case-insensitive: two queries that are equal once
    lower-cased (as "Roadmap" and "roadmap" are) return the same documents,
    in the same order. *)
Theorem searchDocuments_case_insensitive (c : GranolaCache.t) (q q' : string) :
  toLowerCase q = toLowerCase q' ->
  searchDocuments c q = searchDocuments c q'.
Proof.
  intros Hq. unfold searchDocuments. now rewrite Hq.
Qed.

(** C8.  The empty query returns every document of the snapshot. *)
Theorem searchDocuments_empty_query (c : GranolaCache.t) :
  searchDocuments c "" = getDocuments c.
Proof.
  unfold searchDocuments. rewrite toLowerCase_empty.
  apply filter_all, search_matches_empty.
Qed.

End SearchFacts.

(** On the letters A to Z, strings that differ only by case are equal
    once lower-cased. *)
Lemma lower_unit_same_letter (a b : ascii) :
  Spec.same_letter a b -> UtcHost.lower_unit a = UtcHost.lower_unit b.
Proof.
  assert (Hup : forall x y, Spec.is_upper x -> N_of_ascii y = (N_of_ascii x + 32)%N ->
                            UtcHost.lower_unit x = UtcHost.lower_unit y).
  { intros x y [H1 H2] Hy. unfold UtcHost.lower_unit. rewrite Hy.
    replace ((65 <=? N_of_ascii x) && (N_of_ascii x <=? 90))%N with true
      by (symmetry; apply andb_true_iff; split; now apply N.leb_le).
    replace ((65 <=? N_of_ascii x + 32) && (N_of_ascii x + 32 <=? 90))%N with false
      by (symmetry; apply andb_false_iff; right; apply N.leb_gt; lia).
    rewrite <- Hy. now rewrite ascii_N_embedding. }
  intros [-> | [[Ha Hb] | [Hb Ha]]]; [reflexivity | now apply Hup |].
  symmetry. now apply Hup.
Qed.

Lemma lower_case_variant (s s' : string) :
  Spec.case_variant s s' -> UtcHost.lower s = UtcHost.lower s'.
Proof.
  revert s'. induction s as [|a r IH]; intros [|b r']; simpl; try tauto.
  intros [Hab Hr]. now rewrite (lower_unit_same_letter a b Hab), (IH r' Hr).
Qed.

(** A run of [searchDocuments_case_insensitive]: "Roadmap" and "roadmap"
    on the sample snapshot. *)
Lemma searchDocuments_case_insensitive_witness :
  searchDocuments (H := UtcHost.host) Sample.cache "Roadmap"
  = searchDocuments (H := UtcHost.host) Sample.cache "roadmap".
Proof.
  apply (searchDocuments_case_insensitive (H := UtcHost.host)).
  reflexivity.
Defined.

(** ** The cache loader *)

Section LoaderFacts.
Variable JSON_parse : string -> option Raw.json.

Lemma unwrap_not_null (outer : Raw.json) :
  outer <> Raw.JNull ->
  Raw.unwrap JSON_parse outer =
  match Raw.get outer "cache" with
  | Some (Raw.JString s) =>
      match JSON_parse s with
      | Some v => Returned v
      | None => Threw "SyntaxError"
      end
  | Some v => if Raw.truthy (Some v) then Returned v else Returned outer
  | None => Returned outer
  end.
Proof.
  intros Hnn. destruct outer; try congruence; unfold Raw.unwrap;
    (destruct (Raw.get _ "cache") as [[]|]; try reflexivity;
     match goal with |- context [Raw.truthy ?v] => destruct (Raw.truthy v) end;
     reflexivity).
Qed.

Lemma getDocuments_nothing_inside (data : Raw.json) :
  Spec.nothing_inside (Raw.data_documents data) = true -> Raw.getDocuments data = [].
Proof.
  unfold Raw.getDocuments, Spec.nothing_inside.
  destruct (Raw.data_documents data) as [[| b | n | s | l | props]|]; simpl;
    try reflexivity; try discriminate.
  - now destruct b.
  - now destruct (negb (n =? 0)).
  - intros Hs. apply negb_true_iff in Hs. now rewrite Hs.
Qed.

Lemma getTranscript_nothing_to_look_in (data : Raw.json) (documentId : string) :
  Raw.data_transcripts data = None \/ Raw.data_transcripts data = Some Raw.JNull ->
  Raw.getTranscript data documentId = Raw.JArray [].
Proof.
  unfold Raw.getTranscript. now intros [-> | ->].
Qed.

(** C6, as the code has it.  Given the parsed top-level value [outer]
    (reading its [cache] field throws when [outer] is [null]):
    - when [outer.cache] is a string, that string is decoded a second
      time, and a failure of this decoding is thrown;
    - when [outer.cache] is another truthy value, it is used as it is;
    - when [outer.cache] is missing or falsy, the top-level value itself
      is used.
    On the resulting container no accessor throws, and:
    - [getDocuments] is empty when the documents field is missing or holds
      [null], a boolean, a number or the empty string, and lists the
      values of the mapping when it holds an object;
    - an array in the documents field is listed element by element, a
      string unit by unit;
    - [getTranscript] is empty, whatever the identifier, when the
      transcripts field is missing or holds [null]: [?.] stops before the
      lookup.  (On any other value the lookup takes place, and finds the
      members that value inherits: see C5 for a mapping.) *)
Theorem loader_unwraps_and_defaults :
  Raw.unwrap JSON_parse Raw.JNull
  = Threw "TypeError: Cannot read properties of null (reading 'cache')"
  /\ (forall outer s,
        outer <> Raw.JNull -> Raw.get outer "cache" = Some (Raw.JString s) ->
        Raw.unwrap JSON_parse outer
        = match JSON_parse s with
          | Some v => Returned v
          | None => Threw "SyntaxError"
          end)
  /\ (forall outer v,
        outer <> Raw.JNull -> Raw.get outer "cache" = Some v ->
        Raw.is_string (Some v) = false -> Raw.truthy (Some v) = true ->
        Raw.unwrap JSON_parse outer = Returned v)
  /\ (forall outer,
        outer <> Raw.JNull -> Raw.truthy (Raw.get outer "cache") = false ->
        Raw.is_string (Raw.get outer "cache") = false ->
        Raw.unwrap JSON_parse outer = Returned outer)
  /\ (forall data,
        Spec.nothing_inside (Raw.data_documents data) = true ->
        Raw.getDocuments data = [])
  /\ (forall data props,
        Raw.data_documents data = Some (Raw.JObject props) ->
        Raw.getDocuments data = map snd props)
  /\ (forall data elements,
        Raw.data_documents data = Some (Raw.JArray elements) ->
        Raw.getDocuments data = elements)
  /\ (forall data s,
        Raw.data_documents data = Some (Raw.JString s) ->
        Raw.getDocuments data = Raw.units s)
  /\ (forall data documentId,
        Raw.data_transcripts data = None
        \/ Raw.data_transcripts data = Some Raw.JNull ->
        Raw.getTranscript data documentId = Raw.JArray []).
Proof.
  split; [reflexivity |].
  split; [| split; [| split; [| split; [| split; [| split; [| split]]]]]].
  - intros outer s Hnn Hc. rewrite unwrap_not_null by assumption. now rewrite Hc.
  - intros outer v Hnn Hc Hs Ht. rewrite unwrap_not_null by assumption. rewrite Hc.
    destruct v; try discriminate; now rewrite Ht.
  - intros outer Hnn Ht Hs. rewrite unwrap_not_null by assumption.
    destruct (Raw.get outer "cache") as [v|]; [| reflexivity].
    destruct v; try discriminate; now rewrite Ht.
  - apply getDocuments_nothing_inside.
  - intros data props Hd. unfold Raw.getDocuments. now rewrite Hd.
  - intros data elements Hd. unfold Raw.getDocuments. now rewrite Hd.
  - intros data s Hd. unfold Raw.getDocuments. rewrite Hd.
    destruct s; reflexivity.
  - apply getTranscript_nothing_to_look_in.
Qed.

End LoaderFacts.

(** C6 as stated fails on a malformed documents field: the string "ab"
    where the mapping should be is neither replaced by an empty mapping
    nor rejected, [getDocuments] enumerates its two units.  And a [cache]
    field that holds [null] is not used directly: the loader falls back
    on the top-level value, whose documents are then found. *)
Lemma loader_enumerates_string_documents :
  (exists data,
      Raw.unwrap (fun _ => None) Sample.outer_string_documents = Returned data
      /\ Spec.malformed (Raw.data_documents data) = true
      /\ Raw.getDocuments data = [Raw.JString "a"; Raw.JString "b"])
  /\ Raw.get Sample.outer_flat "cache" = Some Raw.JNull
  /\ Raw.unwrap (fun _ => None) Sample.outer_flat = Returned Sample.outer_flat
  /\ Raw.getDocuments Sample.outer_flat = [Raw.JObject []].
Proof.
  split; [| repeat split].
  eexists. split; [reflexivity |]. split; reflexivity.
Qed.

(** A run of [loader_unwraps_and_defaults]: a [cache] field that is a
    JSON-encoded string goes through the second decoding; the sample
    top-level value with an object in [cache] does not; a container
    without state has no documents and no transcripts, under the name of
    an inherited member either; a string in the documents field is
    listed unit by unit. *)
Lemma loader_unwraps_and_defaults_witness :
  Raw.unwrap Sample.parse_empty_object Sample.outer_encoded = Returned (Raw.JObject [])
  /\ Raw.unwrap Sample.parse_empty_object Sample.outer_flat = Returned Sample.outer_flat
  /\ Raw.getDocuments (Raw.JObject []) = []
  /\ Raw.getTranscript (Raw.JObject []) "constructor" = Raw.JArray []
  /\ Raw.getDocuments (Raw.JObject [("state", Raw.JObject [("documents", Raw.JString "ab")])])
     = [Raw.JString "a"; Raw.JString "b"].
Proof.
  destruct (loader_unwraps_and_defaults Sample.parse_empty_object)
    as [_ [Hstr [_ [Hfalsy [Hdocs [_ [_ [Hunits Htr]]]]]]]].
  split; [| split; [| split; [| split]]].
  - apply (Hstr Sample.outer_encoded "{}"); [discriminate | reflexivity].
  - apply Hfalsy; [discriminate | reflexivity | reflexivity].
  - apply Hdocs. reflexivity.
  - apply Htr. left. reflexivity.
  - apply (Hunits _ "ab"). reflexivity.
Defined.

(** ** show and export: from the identifier to the document *)

Section ResolveFacts.
Context `{Host}.

Lemma resolve_document_unique (cache : GranolaCache.t) (id : string) (d : Document.t) :
  (String.length id < 36)%nat ->
  prefix_matches cache id = [d] ->
  resolve_document cache id = ret d.
Proof.
  intros Hlen Hm. unfold resolve_document.
  replace (Z.of_nat (String.length id) <? 36) with true
    by (symmetry; apply Z.ltb_lt; lia).
  rewrite Hm. now rewrite bind_ret_l.
Qed.

Lemma resolve_document_ambiguous (cache : GranolaCache.t) (id : string) :
  (String.length id < 36)%nat ->
  (1 < List.length (prefix_matches cache id))%nat ->
  resolve_document cache id
  = ([ConsoleError (Spec.ambiguous_message id (prefix_matches cache id))], Exited 1).
Proof.
  intros Hlen Hm. unfold resolve_document.
  replace (Z.of_nat (String.length id) <? 36) with true
    by (symmetry; apply Z.ltb_lt; lia).
  destruct (prefix_matches cache id) as [|m1 [|m2 r]]; simpl in Hm; try lia.
  reflexivity.
Qed.

Lemma resolve_document_full (cache : GranolaCache.t) (id : string) :
  (36 <= String.length id)%nat ->
  resolve_document cache id
  = match getDocument cache id with
    | Some d => ret d
    | None => ([ConsoleError ("Meeting not found: " ++ id)], Exited 1)
    end.
Proof.
  intros Hlen. unfold resolve_document.
  replace (Z.of_nat (String.length id) <? 36) with false
    by (symmetry; apply Z.ltb_ge; lia).
  rewrite bind_ret_l. destruct (getDocument cache id); reflexivity.
Qed.

Lemma getDocument_exact (cache : GranolaCache.t) (id : string) (d : Document.t) :
  getDocument cache id = Some d ->
  exists docs, cache_documents cache = Some docs /\ In (id, d) docs.
Proof.
  unfold getDocument. destruct (cache_documents cache) as [docs|]; [| discriminate].
  intros Hg. exists docs. split; [reflexivity |]. now apply Record_get_In.
Qed.

(** C1.  For [show] and [export], with [id] the identifier typed by the
    user:
    - when [id] is shorter than 36 units and exactly one document of the
      snapshot has an identifier that starts with it, the command goes on
      with that document;
    - when [id] is shorter than 36 units and more than one does, the
      command writes one error message that lists every candidate (the
      first twelve units of its identifier and its title), exits with
      code 1 and does nothing else;
    - when [id] has 36 units or more the document is looked up under the
      key [id] itself, whatever identifiers start with [id], and the
      command reports "Meeting not found" and exits with code 1 when
      there is none. *)
Theorem resolve_prefix_or_exact (cache : GranolaCache.t) (id : string) :
  ((String.length id < 36)%nat ->
   forall d, prefix_matches cache id = [d] ->
     (forall includeTranscript,
         showMeeting cache id includeTranscript = show_document cache d includeTranscript)
     /\ (forall outputDir,
           exportMeeting cache id outputDir = export_document cache d outputDir))
  /\ ((String.length id < 36)%nat ->
      (1 < List.length (prefix_matches cache id))%nat ->
      let failure :=
        ([ConsoleError (Spec.ambiguous_message id (prefix_matches cache id))], Exited 1) in
      (forall includeTranscript, showMeeting cache id includeTranscript = failure)
      /\ (forall outputDir, exportMeeting cache id outputDir = failure)
      /\ exit_code failure = 1
      /\ stdout_of (trace failure) = [] /\ files_of (trace failure) = [])
  /\ ((36 <= String.length id)%nat ->
      let not_found := ([ConsoleError ("Meeting not found: " ++ id)], Exited 1) in
      (forall includeTranscript,
          showMeeting cache id includeTranscript
          = match getDocument cache id with
            | Some d => show_document cache d includeTranscript
            | None => not_found
            end)
      /\ (forall outputDir,
            exportMeeting cache id outputDir
            = match getDocument cache id with
              | Some d => export_document cache d outputDir
              | None => not_found
              end)
      /\ (forall d, getDocument cache id = Some d ->
                    exists docs, cache_documents cache = Some docs /\ In (id, d) docs)).
Proof.
  split; [| split].
  - intros Hlen d Hm. split; intros x.
    + unfold showMeeting. rewrite (resolve_document_unique cache id d) by assumption.
      now rewrite bind_ret_l.
    + unfold exportMeeting. rewrite (resolve_document_unique cache id d) by assumption.
      now rewrite bind_ret_l.
  - intros Hlen Hm failure. repeat split; try reflexivity; intros x.
    + unfold showMeeting. now rewrite resolve_document_ambiguous by assumption.
    + unfold exportMeeting. now rewrite resolve_document_ambiguous by assumption.
  - intros Hlen not_found. repeat split.
    + intros x. unfold showMeeting. rewrite resolve_document_full by assumption.
      destruct (getDocument cache id); [now rewrite bind_ret_l | reflexivity].
    + intros x. unfold exportMeeting. rewrite resolve_document_full by assumption.
      destruct (getDocument cache id); [now rewrite bind_ret_l | reflexivity].
    + apply getDocument_exact.
Qed.

End ResolveFacts.

(** A run of [resolve_prefix_or_exact] on the sample snapshot, whose
    identifiers [abc12345-...] and [abc99999-...] share the prefix [abc]:
    [abc1] selects "Weekly Sync", [abc] is ambiguous, and the full
    identifier is looked up as it is. *)
Lemma resolve_prefix_or_exact_witness :
  showMeeting (H := UtcHost.host) Sample.cache "abc1" false
  = show_document (H := UtcHost.host) Sample.cache Sample.doc_sync false
  /\ exportMeeting (H := UtcHost.host) Sample.cache "abc" "./out"
     = ([ConsoleError
           (Spec.ambiguous_message "abc" [Sample.doc_sync; Sample.doc_plan])],
        Exited 1)
  /\ showMeeting (H := UtcHost.host) Sample.cache Sample.id_sync false
     = show_document (H := UtcHost.host) Sample.cache Sample.doc_sync false.
Proof.
  split; [| split].
  - refine (proj1 (proj1 (resolve_prefix_or_exact (H := UtcHost.host) Sample.cache "abc1")
                     _ Sample.doc_sync eq_refl) false).
    vm_compute. lia.
  - refine (proj1 (proj2 (proj1 (proj2
              (resolve_prefix_or_exact (H := UtcHost.host) Sample.cache "abc")) _ _)) "./out").
    + vm_compute. lia.
    + vm_compute. lia.
  - refine (proj1 (proj2 (proj2
              (resolve_prefix_or_exact (H := UtcHost.host) Sample.cache Sample.id_sync)) _)
              false).
    vm_compute. lia.
Defined.

(** ** list: the number of days *)

Lemma num_or_nonzero (n : option Z) (d : Z) : d <> 0 -> num_or n d <> 0.
Proof.
  intros Hd. unfold num_or. destruct n as [v|]; [| exact Hd].
  destruct (Z.eqb_spec v 0); assumption.
Qed.

Section ListFacts.
Context `{Host}.

(** C10.  The number of days [main] passes to [listMeetings], hence to
    [getRecentDocuments], is never zero: it is 7 when [--days] is not
    given, when its value is not a number, and also when its value parses
    to 0.  So [list --days 0] runs exactly as [list --days 7], and no
    command line makes [list] ask for a window of zero days. *)
Theorem list_days_zero_falls_back_to_seven :
  (forall flags, Record_get flags "days" = None -> list_days flags = 7)
  /\ (forall flags,
        parseInt (flag_to_string (Record_get flags "days")) = None -> list_days flags = 7)
  /\ (forall flags,
        parseInt (flag_to_string (Record_get flags "days")) = Some 0 -> list_days flags = 7)
  /\ list_days (Args.flags (parseArgs ["list"; "--days"; "0"])) = 7
  /\ (forall load, main ["list"; "--days"; "0"] load = main ["list"; "--days"; "7"] load)
  /\ (forall flags, list_days flags <> 0)
  /\ (forall args cache,
        Args.command (parseArgs args) = "list" ->
        flag_truthy (Record_get (Args.flags (parseArgs args)) "help") = false ->
        main args (Loaded cache)
        = listMeetings cache (list_days (Args.flags (parseArgs args)))
        /\ list_days (Args.flags (parseArgs args)) <> 0).
Proof.
  split; [| split; [| split; [| split; [| split; [| split]]]]].
  - intros flags Hnone. unfold list_days. now rewrite Hnone.
  - intros flags Hnan. unfold list_days. now rewrite Hnan.
  - intros flags Hzero. unfold list_days. now rewrite Hzero.
  - reflexivity.
  - intros [cache | message]; reflexivity.
  - intros flags. apply num_or_nonzero. discriminate.
  - intros args cache Hcmd Hhelp. split.
    + unfold main. rewrite Hcmd, Hhelp. simpl.
      now destruct (listMeetings cache (list_days (Args.flags (parseArgs args)))).
    + apply num_or_nonzero. discriminate.
Qed.

End ListFacts.

(** A run of [list_days_zero_falls_back_to_seven]: [list --days 0] on the
    sample snapshot is [listMeetings] with 7. *)
Lemma list_days_zero_falls_back_to_seven_witness :
  main (H := UtcHost.host) ["list"; "--days"; "0"] (Loaded Sample.cache)
  = listMeetings (H := UtcHost.host) Sample.cache 7.
Proof.
  destruct (list_days_zero_falls_back_to_seven (H := UtcHost.host))
    as (_ & _ & _ & _ & _ & _ & Hmain).
  exact (proj1 (Hmain ["list"; "--days"; "0"] Sample.cache eq_refl eq_refl)).
Defined.

(** ** The typed accessors are the untyped ones on typed snapshots *)

Lemma Record_get_record {V} (f : V -> Raw.json) (rec : Record_ V) (key : string) :
  Record_get (map (fun kv => (fst kv, f (snd kv))) rec) key
  = option_map f (Record_get rec key).
Proof.
  induction rec as [|[k v] r IH]; simpl; [reflexivity |].
  destruct (String.eqb k key); [reflexivity | exact IH].
Qed.

Lemma data_documents_typed (c : GranolaCache.t) :
  Raw.data_documents (Encode.data c)
  = option_map (Encode.record Encode.document) (cache_documents c).
Proof.
  unfold Encode.data, cache_documents.
  destruct (GranolaCache.data c) as [[[[[docs|] [ts|]]|]]|]; reflexivity.
Qed.

Lemma data_transcripts_typed (c : GranolaCache.t) :
  Raw.data_transcripts (Encode.data c)
  = option_map (Encode.record (fun l => Raw.JArray (map Encode.segment l)))
      (cache_transcripts c).
Proof.
  unfold Encode.data, cache_transcripts.
  destruct (GranolaCache.data c) as [[[[[docs|] [ts|]]|]]|]; reflexivity.
Qed.

Lemma getDocuments_typed (c : GranolaCache.t) :
  Raw.getDocuments (Encode.data c) = map Encode.document (getDocuments c).
Proof.
  unfold Raw.getDocuments, getDocuments. rewrite data_documents_typed.
  destruct (cache_documents c) as [docs|]; simpl; [| reflexivity].
  unfold Object_values. rewrite !map_map. reflexivity.
Qed.

Lemma getDocument_typed (c : GranolaCache.t) (id : string) :
  Raw.getDocument (Encode.data c) id = option_map Encode.document (getDocument c id).
Proof.
  unfold Raw.getDocument, getDocument. rewrite data_documents_typed.
  destruct (cache_documents c) as [docs|]; simpl; [| reflexivity].
  apply Record_get_record.
Qed.

Lemma getTranscript_typed (c : GranolaCache.t) (documentId : string) :
  Raw.getTranscript (Encode.data c) documentId
  = Raw.JArray (map Encode.segment (getTranscript c documentId)).
Proof.
  unfold Raw.getTranscript, getTranscript. rewrite data_transcripts_typed.
  destruct (cache_transcripts c) as [ts|]; [| reflexivity].
  set (f := fun l => Raw.JArray (map Encode.segment l)).
  assert (E : Raw.get_opt (Some (Encode.record f ts)) documentId
              = option_map f (Record_get ts documentId))
    by apply Record_get_record.
  cbn [option_map]. rewrite E.
  destruct (Record_get ts documentId); reflexivity.
Qed.

(** ** Runs on the sample snapshot *)

Example parseInt_runs :
  parseInt "30" = Some 30 /\ parseInt "0" = Some 0 /\ parseInt " 12px" = Some 12
  /\ parseInt "0x1F" = Some 31 /\ parseInt "seven" = None
  /\ parseInt (flag_to_string (Some FlagTrue)) = None
  /\ parseInt (flag_to_string None) = None.
Proof. repeat split. Qed.

Example parseArgs_run :
  parseArgs ["show"; "abc1"; "--transcript"]
  = Args.mk "show" ["abc1"] [("transcript", FlagTrue)].
Proof. reflexivity. Qed.

(** [--days] followed by a token that starts with a dash takes no value. *)
Example parseArgs_negative_days :
  list_days (Args.flags (parseArgs ["list"; "--days"; "-3"])) = 7.
Proof. reflexivity. Qed.

(** A snapshot whose only meeting is older than the window: [list]
    prints the "no meetings" message and ends normally. *)
Example list_empty_window :
  main (H := UtcHost.host) ["list"; "--days"; "1"]
    (Loaded (Sample.snapshot [Sample.doc_old] []))
  = ([ConsoleLog "No meetings found in the last 1 days."], Returned tt).
Proof. reflexivity. Qed.

Example show_ambiguous_prefix :
  main (H := UtcHost.host) ["show"; "abc"] (Loaded Sample.cache)
  = ([ConsoleError
        ("Multiple meetings match " ++ dq ++ "abc" ++ dq ++ ". Be more specific:" ++ nl ++
         "  abc12345-000 - Weekly Sync" ++ nl ++
         "  abc99999-000 - Roadmap planning")],
     Exited 1).
Proof. reflexivity. Qed.

Example show_with_transcript :
  stdout_of (trace (main (H := UtcHost.host) ["show"; "abc1"; "--transcript"]
                      (Loaded Sample.cache)))
  = [ "# Weekly Sync" ++ nl ++ nl ++
      "**ID:** abc12345-0000-4000-8000-000000000001" ++ nl ++
      "**Date:** 30/01/2026, 10:00:00" ++ nl ++
      "**Participants:** Ada Lovelace, bob@example.com, Unknown";
      nl ++ "## Transcript" ++ nl;
      "[10:00:05] hello" ++ nl ++ "[10:00:09] world" ].
Proof. reflexivity. Qed.

Example export_file_name :
  map fst (files_of (trace (main (H := UtcHost.host) ["export"; "abc1"; "--output"; "./out"]
                              (Loaded Sample.cache))))
  = ["out/2026-01-30-weekly-sync.md"].
Proof. reflexivity. Qed.

Example search_is_case_insensitive_run :
  map Document.title (searchDocuments (H := UtcHost.host) Sample.cache "BOB@EXAMPLE")
  = ["Weekly Sync"].
Proof. reflexivity. Qed.

(* ===================================================================== *)
(** * Further properties of the code *)
(* ===================================================================== *)

(** ** Lookups in the snapshot *)

Lemma Record_get_stored {V} (rec : Record_ V) (key : string) (v : V) :
  NoDup (map fst rec) -> In (key, v) rec -> Record_get rec key = Some v.
Proof.
  induction rec as [|[k w] r IH]; simpl; intros Hnd Hin; [destruct Hin |].
  inversion Hnd as [|? ? Hk Hr]; subst.
  destruct Hin as [[= -> ->] | Hin].
  - now rewrite String.eqb_refl.
  - destruct (String.eqb_spec k key) as [-> | _]; [| now apply IH].
    exfalso. apply Hk. change key with (fst (key, v)). now apply in_map.
Qed.

(** The document stored under a key is what [getDocument] returns for
    that key, and it is one of the documents [getDocuments] lists; every
    document [getDocument] finds in the snapshot is listed by
    [getDocuments].  What it returns and [getDocuments] does not list is
    no document of the snapshot: it is the member of [Object.prototype]
    that the identifier names, no document being stored under it. *)
Theorem getDocument_round_trip (c : GranolaCache.t) :
  (forall docs id d,
      cache_documents c = Some docs -> NoDup (map fst docs) -> In (id, d) docs ->
      getDocument_value c id = Own d)
  /\ (forall id d, getDocument_value c id = Own d -> In d (getDocuments c))
  /\ (forall id name,
        getDocument_value c id = Inherited name ->
        name = id /\ inherited id = true /\ getDocument c id = None).
Proof.
  split; [| split].
  - intros docs id d Hc Hnd Hin. unfold getDocument_value, Record_member. rewrite Hc.
    now rewrite (Record_get_stored docs id d).
  - intros id d Hg. unfold getDocument_value, Record_member, getDocuments in *.
    destruct (cache_documents c) as [docs|]; [| discriminate].
    destruct (Record_get docs id) as [d'|] eqn:Eg.
    + injection Hg as ->. apply Record_get_In in Eg. unfold Object_values.
      change d with (snd (id, d)). now apply in_map.
    + destruct (inherited id); discriminate.
  - intros id name Hg. unfold getDocument_value, Record_member, getDocument in *.
    destruct (cache_documents c) as [docs|]; [| discriminate].
    destruct (Record_get docs id) as [d'|]; [discriminate |].
    destruct (inherited id); [| discriminate].
    injection Hg as <-. now repeat split.
Qed.

Lemma getDocument_round_trip_witness :
  getDocument_value Sample.cache Sample.id_plan = Own Sample.doc_plan
  /\ In Sample.doc_plan (getDocuments Sample.cache)
  /\ getDocument Sample.cache "toString" = None.
Proof.
  destruct (getDocument_round_trip Sample.cache) as (Hstored & Hlisted & Hmember).
  assert (Hg : getDocument_value Sample.cache Sample.id_plan = Own Sample.doc_plan).
  { eapply Hstored; [reflexivity | |].
    - simpl. repeat constructor; simpl; intuition discriminate.
    - simpl. tauto. }
  split; [exact Hg |]. split; [exact (Hlisted _ _ Hg) |].
  apply (Hmember "toString" "toString"). reflexivity.
Defined.

(** The segments stored for a document are what [getTranscript] returns
    for it, in the stored order, also when the stored array is empty. *)
Theorem getTranscript_round_trip
  (c : GranolaCache.t) (ts : Record_ (list TranscriptSegment.t))
  (documentId : string) (segments : list TranscriptSegment.t) :
  cache_transcripts c = Some ts -> NoDup (map fst ts) -> In (documentId, segments) ts ->
  getTranscript c documentId = segments.
Proof.
  intros Hc Hnd Hin. unfold getTranscript. rewrite Hc.
  now rewrite (Record_get_stored ts documentId segments).
Qed.

Lemma getTranscript_round_trip_witness :
  getTranscript Sample.cache Sample.id_sync = [Sample.seg_world; Sample.seg_hello].
Proof.
  eapply getTranscript_round_trip; [reflexivity | |].
  - simpl. repeat constructor. intros [].
  - simpl. tauto.
Defined.

(** ** What the search finds *)

Section SearchMore.
Context `{Host}.

Lemma js_or_str_empty_default (s : string) : js_or_str (Some s) "" = s.
Proof.
  unfold js_or_str, js_or, truthy.
  destruct (String.eqb_spec s "") as [-> | _]; reflexivity.
Qed.

Lemma includes_in_empty (q : string) : q <> "" -> includes "" q = false.
Proof. destruct q; [congruence | reflexivity]. Qed.

(** A document of the snapshot is returned as soon as its lower-cased
    title, or its lower-cased plain-text notes, contain the lower-cased
    query. *)
Theorem searchDocuments_finds_title_or_notes
  (c : GranolaCache.t) (query : string) (d : Document.t) :
  In d (getDocuments c) ->
  (includes (toLowerCase (Document.title d)) (toLowerCase query) = true
   \/ exists notes, Document.notes_plain d = Some notes
                    /\ includes (toLowerCase notes) (toLowerCase query) = true) ->
  In d (searchDocuments c query).
Proof.
  intros Hin Hfound. unfold searchDocuments. apply filter_In. split; [exact Hin |].
  unfold search_matches. rewrite js_or_str_empty_default.
  destruct Hfound as [Ht | [notes [Hn Hi]]].
  - now rewrite Ht.
  - rewrite Hn. simpl option_map. rewrite js_or_str_empty_default, Hi.
    now rewrite orb_true_r.
Qed.

(** A document with an empty title, no notes and no attendees is never
    returned for a query that is not empty once lower-cased. *)
Theorem searchDocuments_skips_blank_documents
  (c : GranolaCache.t) (query : string) (d : Document.t) :
  Document.title d = "" ->
  Spec.blank (Document.notes_plain d) ->
  (doc_attendees d = None \/ doc_attendees d = Some []) ->
  toLowerCase query <> "" ->
  ~ In d (searchDocuments c query).
Proof.
  intros Ht Hn Ha Hq Hin. unfold searchDocuments in Hin. apply filter_In in Hin.
  destruct Hin as [_ Hm]. unfold search_matches in Hm.
  rewrite Ht, toLowerCase_empty in Hm.
  assert (Hnotes : js_or_str (option_map toLowerCase (Document.notes_plain d)) "" = "").
  { destruct Hn as [-> | ->]; simpl; [reflexivity |].
    now rewrite toLowerCase_empty. }
  assert (Hatt : forall f : list Person.t -> string, f [] = "" ->
                 js_or_str (option_map f (doc_attendees d)) "" = "").
  { intros f Hf. destruct Ha as [-> | ->]; simpl; [reflexivity |]. now rewrite Hf. }
  rewrite Hnotes, Hatt in Hm by (simpl; apply toLowerCase_empty).
  change (js_or_str (Some "") "") with "" in Hm.
  rewrite includes_in_empty in Hm by assumption. discriminate.
Qed.

End SearchMore.

Lemma searchDocuments_finds_title_or_notes_witness :
  In Sample.doc_sync (searchDocuments (H := UtcHost.host) Sample.cache "SYNC").
Proof.
  apply (searchDocuments_finds_title_or_notes (H := UtcHost.host)).
  - simpl. tauto.
  - left. reflexivity.
Defined.

Lemma searchDocuments_skips_blank_documents_witness :
  ~ In Fixture.doc_blank (searchDocuments (H := UtcHost.host) Fixture.cache "sync").
Proof.
  apply (searchDocuments_skips_blank_documents (H := UtcHost.host)).
  - reflexivity.
  - left. reflexivity.
  - left. reflexivity.
  - discriminate.
Defined.

(** ** Runs of the commands *)

Lemma for_of_returns {A} (l : list A) (body : A -> Proc unit) :
  (forall x, snd (body x) = Returned tt) ->
  for_of l body = (flat_map (fun x => fst (body x)) l, Returned tt).
Proof.
  intros Hb. induction l as [|x r IH]; simpl; [reflexivity |].
  rewrite IH. unfold bind. specialize (Hb x). destruct (body x) as [tr c].
  simpl in *. now subst c.
Qed.

Lemma keeps_bind {A B} (Pe : Event -> Prop) (Pc : Z -> Prop)
      (m : Proc A) (k : A -> Proc B) :
  Runs.keeps Pe Pc m -> (forall a, Runs.keeps Pe Pc (k a)) ->
  Runs.keeps Pe Pc (bind m k).
Proof.
  unfold Runs.keeps. destruct m as [tr [a | code | e]]; simpl; intros [Htr Hc] Hk.
  - specialize (Hk a). destruct (k a) as [tr' c']. simpl in *.
    destruct Hk as [Htr' Hc']. split; [| exact Hc'].
    apply Forall_app. now split.
  - now split.
  - now split.
Qed.

Lemma keeps_for_of {A} (Pe : Event -> Prop) (Pc : Z -> Prop)
      (l : list A) (body : A -> Proc unit) :
  (forall x, Runs.keeps Pe Pc (body x)) -> Runs.keeps Pe Pc (for_of l body).
Proof.
  intros Hb. induction l as [|x r IH]; simpl.
  - split; simpl; [constructor | exact I].
  - apply keeps_bind; [apply Hb | intros _; exact IH].
Qed.

Lemma keeps_single {A} (Pe : Event -> Prop) (Pc : Z -> Prop) (e : Event) (a : A) :
  Pe e -> Runs.keeps Pe Pc ([e], Returned a).
Proof. intros He. split; simpl; [now repeat constructor | exact I]. Qed.

Lemma keeps_ret {A} (Pe : Event -> Prop) (Pc : Z -> Prop) (a : A) :
  Runs.keeps Pe Pc (ret a).
Proof. split; simpl; [constructor | exact I]. Qed.

Lemma keeps_exit {A} (Pe : Event -> Prop) (Pc : Z -> Prop) (code : Z) :
  Pc code -> Runs.keeps Pe Pc (@process_exit A code).
Proof. intros Hc. split; simpl; [constructor | exact Hc]. Qed.

Lemma keeps_throw {A} (Pe : Event -> Prop) (Pc : Z -> Prop) (e : string) :
  Runs.keeps Pe Pc (@throw A e).
Proof. split; simpl; [constructor | exact I]. Qed.

(** Steps through a command: splits binds, conditionals and matches, and
    closes the leaves that write one console line, return, throw or exit
    with an allowed code. *)
Ltac keeps_step :=
  match goal with
  | |- Runs.keeps _ _ (bind _ _) => apply keeps_bind; [| intros ?]
  | |- Runs.keeps _ _ (for_of _ _) => apply keeps_for_of; intros ?
  | |- Runs.keeps _ _ (ret _) => apply keeps_ret
  | |- Runs.keeps _ _ (throw _) => apply keeps_throw
  | |- Runs.keeps _ _ (process_exit _) => apply keeps_exit
  | |- Runs.keeps _ _ (console_log _) => apply keeps_single
  | |- Runs.keeps _ _ (console_error _) => apply keeps_single
  | |- Runs.keeps _ _ (mkdirSync _) => apply keeps_single
  | |- Runs.keeps _ _ (writeFileSync _ _) => apply keeps_single
  | |- Runs.keeps _ _ (if ?b then _ else _) => destruct b
  | |- Runs.keeps _ _ (match ?x with _ => _ end) => destruct x
  | |- Runs.keeps _ _ (let _ := _ in _) => cbv zeta
  end.

Section CommandRuns.
Context `{Host}.

Variable Pe : Event -> Prop.
Variable Pc : Z -> Prop.
Hypothesis console_ok : forall e, Runs.is_console e = true -> Pe e.
Hypothesis one_ok : Pc 1.

Lemma keeps_listMeetings (cache : GranolaCache.t) (days : Z) :
  Runs.keeps Pe Pc (listMeetings cache days).
Proof.
  unfold listMeetings. repeat keeps_step; auto.
Qed.

Lemma keeps_searchMeetings (cache : GranolaCache.t) (query : string) :
  Runs.keeps Pe Pc (searchMeetings cache query).
Proof.
  unfold searchMeetings. repeat keeps_step; auto.
Qed.

Lemma keeps_resolve_document (cache : GranolaCache.t) (id : string) :
  Runs.keeps Pe Pc (resolve_document cache id).
Proof.
  unfold resolve_document. repeat keeps_step; auto.
Qed.

Lemma keeps_showMeeting (cache : GranolaCache.t) (id : string) (t : bool) :
  Runs.keeps Pe Pc (showMeeting cache id t).
Proof.
  unfold showMeeting, show_document.
  apply keeps_bind; [apply keeps_resolve_document | intros doc].
  repeat keeps_step; auto.
Qed.

End CommandRuns.

Lemma flat_map_length_bounds {A B} (f : A -> list B) (lo hi : nat) (l : list A) :
  (forall x, (lo <= List.length (f x) <= hi)%nat) ->
  (lo * List.length l <= List.length (flat_map f l) <= hi * List.length l)%nat.
Proof.
  intros Hf. induction l as [|x r IH]; simpl; [lia |].
  rewrite length_app. specialize (Hf x). lia.
Qed.

Lemma stdout_of_app (tr1 tr2 : list Event) :
  stdout_of (tr1 ++ tr2) = (stdout_of tr1 ++ stdout_of tr2)%list.
Proof. apply flat_map_app. Qed.

Lemma bind_returned {A B} (tr : list Event) (a : A) (k : A -> Proc B) :
  bind (tr, Returned a) k = ((tr ++ fst (k a))%list, snd (k a)).
Proof. unfold bind. now destruct (k a). Qed.

Section Reports.
Context `{Host}.

(** [search] only writes to the standard output and always returns
    normally.  Without a match it prints one "No meetings found" line;
    otherwise it prints a header, three lines for each of the first twenty
    matches at most, and a last line that counts all the matches, shown
    or not. *)
Theorem searchMeetings_report (c : GranolaCache.t) (query : string) :
  let results := searchDocuments c query in
  let run := searchMeetings c query in
  snd run = Returned tt
  /\ Forall (fun e => Runs.is_log e = true) (trace run)
  /\ (results = [] ->
      trace run = [ConsoleLog ("No meetings found matching " ++ dq ++ query ++ dq)])
  /\ (results <> [] ->
      List.length (trace run) = (3 * Nat.min 20 (List.length results) + 2)%nat
      /\ last (stdout_of (trace run)) ""
         = nl ++ "Found: " ++ of_Z (Z.of_nat (List.length results)) ++ " meetings").
Proof.
  intros results run. unfold run, searchMeetings. fold results.
  destruct results as [|d r] eqn:E.
  - split; [reflexivity |]. split; [repeat constructor |].
    split; [reflexivity | congruence].
  - change (Z.of_nat (List.length (d :: r)) =? 0) with false. cbv iota.
    rewrite for_of_returns by (intros x; reflexivity).
    unfold console_log. rewrite !bind_returned. cbn [fst snd]. unfold trace. cbn [fst].
    set (entries := flat_map _ (firstn 20 (d :: r))).
    assert (Hlog : Forall (fun e => Runs.is_log e = true) entries).
    { apply Forall_flat_map. apply Forall_forall. intros x _. repeat constructor. }
    assert (Hlen : List.length entries = (3 * Nat.min 20 (List.length (d :: r)))%nat).
    { unfold entries.
      match goal with |- List.length (flat_map ?f ?l) = _ =>
        pose proof (flat_map_length_bounds f 3 3 l (fun x => conj (le_n 3) (le_n 3))) as Hb
      end.
      rewrite length_firstn in Hb. lia. }
    split; [reflexivity |]. split; [| split; [discriminate |]].
    + apply Forall_app. split; [repeat constructor |].
      apply Forall_app. split; [exact Hlog | repeat constructor].
    + intros _. split.
      * rewrite !length_app, Hlen. cbn [List.length]. lia.
      * rewrite app_assoc, stdout_of_app. cbn [stdout_of flat_map app]. rewrite app_comm_cons. apply last_last.
Qed.

(** [list], for a number of days of at most 2^53 in absolute value, only
    writes to the standard output and always returns normally.  When no
    document is recent it prints one "No meetings found" line that names
    the number of days in decimal digits; otherwise it prints a header
    that names the number of days, three or four lines for every recent
    document, and a last line that counts them. *)
Theorem listMeetings_report (c : GranolaCache.t) (days : Z) :
  Runs.exact days ->
  let recent := getRecentDocuments c (Some days) in
  let run := listMeetings c days in
  snd run = Returned tt
  /\ Forall (fun e => Runs.is_log e = true) (trace run)
  /\ (recent = [] ->
      trace run = [ConsoleLog ("No meetings found in the last " ++ of_Z days ++ " days.")])
  /\ (recent <> [] ->
      hd_error (trace run)
      = Some (ConsoleLog ("## Recent Meetings (last " ++ of_Z days ++ " days)" ++ nl))
      /\ (3 * List.length recent + 2 <= List.length (trace run)
          <= 4 * List.length recent + 2)%nat
      /\ last (stdout_of (trace run)) ""
         = nl ++ "Total: " ++ of_Z (Z.of_nat (List.length recent)) ++ " meetings").
Proof.
  intros _ recent run. unfold run, listMeetings. fold recent.
  destruct recent as [|d r] eqn:E.
  - split; [reflexivity |]. split; [repeat constructor |].
    split; [reflexivity | congruence].
  - change (Z.of_nat (List.length (d :: r)) =? 0) with false. cbv iota.
    assert (Hbody : forall doc : Document.t,
      snd (let date := toLocaleDateString (new_Date (Document.created_at doc)) in
           let time := toLocaleTimeString_hm (new_Date (Document.created_at doc)) in
           let attendees := list_attendees doc in
           console_log ("- **" ++ Document.title doc ++ "**") ;;
           console_log ("  ID: `" ++ slice0 8 (Document.id doc) ++ "` | "
                         ++ date ++ " " ++ time) ;;
           (if truthy attendees then console_log ("  With: " ++ attendees) else ret tt) ;;
           console_log "") = Returned tt).
    { intros doc. cbv zeta. destruct (truthy (list_attendees doc)); reflexivity. }
    rewrite for_of_returns by exact Hbody.
    unfold console_log. rewrite !bind_returned. cbn [fst snd]. unfold trace. cbn [fst].
    set (entries := flat_map _ (d :: r)).
    assert (Hlog : Forall (fun e => Runs.is_log e = true) entries).
    { apply Forall_flat_map. apply Forall_forall. intros x _. cbv zeta.
      destruct (truthy (list_attendees x)); repeat constructor. }
    assert (Hlen : (3 * List.length (d :: r) <= List.length entries
                    <= 4 * List.length (d :: r))%nat).
    { unfold entries. apply flat_map_length_bounds. intros x. cbv zeta.
      destruct (truthy (list_attendees x)); simpl; lia. }
    split; [reflexivity |]. split; [| split; [discriminate |]].
    + apply Forall_app. split; [repeat constructor |].
      apply Forall_app. split; [exact Hlog | repeat constructor].
    + intros _. split; [reflexivity |]. split.
      * rewrite !length_app. cbn [List.length] in *. lia.
      * rewrite app_assoc, stdout_of_app. cbn [stdout_of flat_map app].
        rewrite app_comm_cons. apply last_last.
Qed.

End Reports.

Lemma searchMeetings_report_witness :
  List.length (trace (searchMeetings (H := UtcHost.host) Sample.cache "roadmap")) = 5%nat
  /\ trace (searchMeetings (H := UtcHost.host) Sample.cache "budget")
     = [ConsoleLog ("No meetings found matching " ++ dq ++ "budget" ++ dq)].
Proof.
  destruct (searchMeetings_report (H := UtcHost.host) Sample.cache "roadmap")
    as (_ & _ & _ & Hsome).
  destruct (searchMeetings_report (H := UtcHost.host) Sample.cache "budget")
    as (_ & _ & Hnone & _).
  split.
  - destruct Hsome as [Hlen _]; [vm_compute; discriminate |]. exact Hlen.
  - apply Hnone. reflexivity.
Defined.

Lemma listMeetings_report_witness :
  last (stdout_of (trace (listMeetings (H := UtcHost.host) Sample.cache 7))) ""
  = nl ++ "Total: 3 meetings"
  /\ trace (listMeetings (H := UtcHost.host) (Sample.snapshot [Sample.doc_old] []) 7)
     = [ConsoleLog "No meetings found in the last 7 days."].
Proof.
  destruct (listMeetings_report (H := UtcHost.host) Sample.cache 7)
    as (_ & _ & _ & Hsome); [unfold Runs.exact; lia |].
  destruct (listMeetings_report (H := UtcHost.host) (Sample.snapshot [Sample.doc_old] []) 7)
    as (_ & _ & Hnone & _); [unfold Runs.exact; lia |].
  split.
  - destruct Hsome as (_ & _ & Hlast); [vm_compute; discriminate |]. exact Hlast.
  - apply Hnone. reflexivity.
Defined.


(** ** The argument vector *)

Lemma startsWith_two_dashes (arg : string) :
  startsWith arg "--" = true -> startsWith arg "-" = true.
Proof.
  unfold startsWith. destruct arg as [|a s]; cbn [String.prefix]; [discriminate |].
  destruct (ascii_dec "-" a); [| discriminate]. intros _. now destruct s.
Qed.

Lemma startsWith_two_dashes_split (arg : string) :
  startsWith arg "--" = true -> arg = "--" ++ slice_from 2 arg.
Proof.
  unfold startsWith. destruct arg as [|a [|b s]]; cbn [String.prefix]; try discriminate.
  - destruct (ascii_dec "-" a); discriminate.
  - destruct (ascii_dec "-" a); [| discriminate].
    destruct (ascii_dec "-" b); [| discriminate]. now subst.
Qed.

(** The cases of the loop of [parseArgs], as an induction principle:
    [Q args st r] is shown for the result [r] of the loop on [args] from
    the state [st]. *)
Lemma parseArgs_loop_cases (Q : list string -> Args.t -> Args.t -> Prop) :
  (forall st, Q [] st st) ->
  (forall arg rest st r,
      truthy (Args.command st) = false -> startsWith arg "-" = false ->
      Q rest (Args.mk arg (Args.positional st) (Args.flags st)) r ->
      Q (arg :: rest) st r) ->
  (forall arg next rest st r,
      startsWith arg "--" = true ->
      truthy next = true -> startsWith next "-" = false ->
      Q rest (Args.mk (Args.command st) (Args.positional st)
                (flag_set (Args.flags st) (slice_from 2 arg) (FlagString next))) r ->
      Q (arg :: next :: rest) st r) ->
  (forall arg rest st r,
      startsWith arg "--" = true ->
      (forall next rest', rest = next :: rest' ->
                          truthy next && negb (startsWith next "-") = false) ->
      Q rest (Args.mk (Args.command st) (Args.positional st)
                (flag_set (Args.flags st) (slice_from 2 arg) FlagTrue)) r ->
      Q (arg :: rest) st r) ->
  (forall arg rest st r,
      truthy (Args.command st) = true -> startsWith arg "-" = false ->
      Q rest (Args.mk (Args.command st) (Args.positional st ++ [arg]) (Args.flags st)) r ->
      Q (arg :: rest) st r) ->
  (forall arg rest st r,
      startsWith arg "-" = true -> startsWith arg "--" = false ->
      Q rest st r -> Q (arg :: rest) st r) ->
  forall args st, Q args st (parseArgs_loop args st).
Proof.
  intros Hnil Hcmd Hval Htrue Hpos Hskip args.
  assert (Hfuel : forall n args, (List.length args <= n)%nat ->
                                 forall st, Q args st (parseArgs_loop args st)).
  { induction n as [|n IH]; intros [|arg rest] Hlen st; simpl in Hlen; try lia;
      try apply Hnil.
    assert (IHrest : forall st', Q rest st' (parseArgs_loop rest st'))
      by (intros st'; apply IH; lia).
    simpl.
    destruct (truthy (Args.command st)) eqn:Ec;
      destruct (startsWith arg "-") eqn:Ed; simpl.
    - destruct (startsWith arg "--") eqn:Edd.
      + destruct rest as [|next rest'].
        * apply Htrue; [exact Edd | intros ? ? [=] | apply Hnil].
        * destruct (truthy next && negb (startsWith next "-")) eqn:Ev.
          -- apply andb_true_iff in Ev. destruct Ev as [Ev1 Ev2].
             apply negb_true_iff in Ev2.
             apply Hval; auto. apply IH. simpl in Hlen. lia.
          -- apply Htrue; [exact Edd | intros ? ? [= <- <-]; exact Ev | apply IHrest].
      + apply Hskip; auto.
    - destruct (startsWith arg "--") eqn:Edd.
      + apply startsWith_two_dashes in Edd. congruence.
      + now apply Hpos.
    - destruct (startsWith arg "--") eqn:Edd.
      + destruct rest as [|next rest'].
        * apply Htrue; [exact Edd | intros ? ? [=] | apply Hnil].
        * destruct (truthy next && negb (startsWith next "-")) eqn:Ev.
          -- apply andb_true_iff in Ev. destruct Ev as [Ev1 Ev2].
             apply negb_true_iff in Ev2.
             apply Hval; auto. apply IH. simpl in Hlen. lia.
          -- apply Htrue; [exact Edd | intros ? ? [= <- <-]; exact Ev | apply IHrest].
      + apply Hskip; auto.
    - now apply Hcmd. }
  intros st. now apply (Hfuel (List.length args)).
Qed.

(** What [flags[key] = v] stores. *)
Lemma flag_set_In (flags : Record_ FlagValue) (key : string) (v : FlagValue)
      (k : string) (w : FlagValue) :
  In (k, w) (flag_set flags key v) -> (k = key /\ w = v) \/ In (k, w) flags.
Proof.
  unfold flag_set. destruct (String.eqb key "__proto__").
  - now right.
  - intros [[= <- <-] | Hin]; [now left | now right].
Qed.

Lemma flag_set_stored (flags : Record_ FlagValue) (key : string) (v : FlagValue) :
  key <> "__proto__" -> flag_set flags key v = (key, v) :: flags.
Proof.
  intros Hk. unfold flag_set.
  destruct (String.eqb key "__proto__") eqn:E; [| reflexivity].
  apply String.eqb_eq in E. contradiction.
Qed.

Lemma Record_get_flag_set (flags : Record_ FlagValue) (key : string) (v : FlagValue)
      (k : string) :
  Record_get (flag_set flags key v) k
  = if String.eqb key "__proto__" then Record_get flags k
    else if String.eqb key k then Some v else Record_get flags k.
Proof.
  unfold flag_set. now destruct (String.eqb key "__proto__").
Qed.

(** What [parseArgs] keeps about the vector [all] it reads: the command,
    the positional arguments and the flag values are tokens of the vector
    that do not start with a dash, the values being non-empty; every flag
    name was written as [--name] in the vector. *)
Lemma parseArgs_loop_tokens (all : list string) (args : list string) (st : Args.t) :
  let Inv := fun a : Args.t =>
    (Args.command a <> "" ->
     In (Args.command a) all /\ startsWith (Args.command a) "-" = false)
    /\ (forall p, In p (Args.positional a) -> In p all /\ startsWith p "-" = false)
    /\ (forall k v, In (k, v) (Args.flags a) -> In ("--" ++ k) all)
    /\ (forall k s, In (k, FlagString s) (Args.flags a) ->
                    In s all /\ s <> "" /\ startsWith s "-" = false) in
  incl args all -> Inv st -> Inv (parseArgs_loop args st).
Proof.
  intros Inv. revert args st.
  apply (parseArgs_loop_cases (fun args st r => incl args all -> Inv st -> Inv r)).
  - auto.
  - intros arg rest st r Hc Hd IH Hincl (I1 & I2 & I3 & I4). apply IH.
    + intros x Hx. apply Hincl. now right.
    + split; [| split; [exact I2 | split; [exact I3 | exact I4]]].
      simpl. intros _. split; [apply Hincl; now left | exact Hd].
  - intros arg next rest st r Hdd Ht Hd IH Hincl (I1 & I2 & I3 & I4). apply IH.
    + intros x Hx. apply Hincl. right. now right.
    + split; [exact I1 |]. split; [exact I2 |]. split.
      * intros k v Hin. cbn [Args.flags] in Hin. apply flag_set_In in Hin.
        destruct Hin as [[-> _] | Hin]; [| now apply (I3 k v)].
        rewrite <- startsWith_two_dashes_split by assumption. apply Hincl. now left.
      * intros k s Hin. cbn [Args.flags] in Hin. apply flag_set_In in Hin.
        destruct Hin as [[_ E] | Hin]; [| now apply (I4 k s)].
        assert (Hs : s = next) by congruence. subst s.
        split; [apply Hincl; right; now left |]. split; [| exact Hd].
        now apply truthy_true_iff.
  - intros arg rest st r Hdd _ IH Hincl (I1 & I2 & I3 & I4). apply IH.
    + intros x Hx. apply Hincl. now right.
    + split; [exact I1 |]. split; [exact I2 |]. split.
      * intros k v Hin. cbn [Args.flags] in Hin. apply flag_set_In in Hin.
        destruct Hin as [[-> _] | Hin]; [| now apply (I3 k v)].
        rewrite <- startsWith_two_dashes_split by assumption. apply Hincl. now left.
      * intros k s Hin. cbn [Args.flags] in Hin. apply flag_set_In in Hin.
        destruct Hin as [[_ [=]] | Hin]. now apply (I4 k s).
  - intros arg rest st r Hc Hd IH Hincl (I1 & I2 & I3 & I4). apply IH.
    + intros x Hx. apply Hincl. now right.
    + split; [exact I1 |]. split; [| split; [exact I3 | exact I4]]. simpl.
      intros p Hp. apply in_app_or in Hp. destruct Hp as [Hp | [<- | []]].
      * now apply I2.
      * split; [apply Hincl; now left | exact Hd].
  - intros arg rest st r _ _ IH Hincl HI. apply IH; [| exact HI].
    intros x Hx. apply Hincl. now right.
Qed.

(** [parseArgs] invents nothing: the command (when there is one), every
    positional argument and every flag value is a token of the argument
    vector that does not start with a dash; flag values are not empty; and
    every flag name [k] stands in the vector as the token [--k]. *)
Theorem parseArgs_tokens (args : list string) :
  let a := parseArgs args in
  (Args.command a <> "" ->
   In (Args.command a) args /\ startsWith (Args.command a) "-" = false)
  /\ (forall p, In p (Args.positional a) -> In p args /\ startsWith p "-" = false)
  /\ (forall k v, In (k, v) (Args.flags a) -> In ("--" ++ k) args)
  /\ (forall k s, In (k, FlagString s) (Args.flags a) ->
                  In s args /\ s <> "" /\ startsWith s "-" = false).
Proof.
  apply (parseArgs_loop_tokens args args).
  - apply incl_refl.
  - simpl. repeat split; try contradiction; congruence.
Qed.

Lemma parseArgs_tokens_witness :
  In "abc1" ["show"; "--output"; "dir"; "abc1"; "-v"]
  /\ In ("--" ++ "output") ["show"; "--output"; "dir"; "abc1"; "-v"].
Proof.
  destruct (parseArgs_tokens ["show"; "--output"; "dir"; "abc1"; "-v"])
    as (_ & Hpos & Hflag & _).
  split.
  - apply (Hpos "abc1"). simpl. tauto.
  - apply (Hflag "output" (FlagString "dir")). simpl. tauto.
Defined.

Lemma parseArgs_loop_help (args : list string) (st : Args.t) :
  flag_truthy (Record_get (Args.flags st) "help") = true \/ In "--help" args ->
  flag_truthy (Record_get (Args.flags (parseArgs_loop args st)) "help") = true.
Proof.
  revert args st.
  apply (parseArgs_loop_cases (fun args st r =>
    flag_truthy (Record_get (Args.flags st) "help") = true \/ In "--help" args ->
    flag_truthy (Record_get (Args.flags r) "help") = true)).
  - intros st [Hst | []]. exact Hst.
  - intros arg rest st r _ Hd IH [Hst | [-> | Hin]]; [apply IH; now left | | apply IH; now right].
    discriminate Hd.
  - intros arg next rest st r Hdd Ht Hd IH Hor. apply IH.
    destruct Hor as [Hst | [-> | [-> | Hin]]].
    + left. cbn [Args.flags]. rewrite Record_get_flag_set.
      destruct (String.eqb (slice_from 2 arg) "__proto__"); [exact Hst |].
      destruct (String.eqb (slice_from 2 arg) "help"); [exact Ht | exact Hst].
    + left. exact Ht.
    + discriminate Hd.
    + now right.
  - intros arg rest st r Hdd _ IH Hor. apply IH.
    destruct Hor as [Hst | [-> | Hin]].
    + left. cbn [Args.flags]. rewrite Record_get_flag_set.
      destruct (String.eqb (slice_from 2 arg) "__proto__"); [exact Hst |].
      destruct (String.eqb (slice_from 2 arg) "help"); [reflexivity | exact Hst].
    + left. reflexivity.
    + now right.
  - intros arg rest st r _ Hd IH [Hst | [-> | Hin]]; [apply IH; now left | | apply IH; now right].
    discriminate Hd.
  - intros arg rest st r _ Hdd IH [Hst | [-> | Hin]]; [apply IH; now left | | apply IH; now right].
    discriminate Hdd.
Qed.

Lemma parseArgs_loop_no_command (args : list string) (st : Args.t) :
  Args.command st = "" -> Forall (fun a => startsWith a "-" = true) args ->
  Args.command (parseArgs_loop args st) = "".
Proof.
  revert args st.
  apply (parseArgs_loop_cases (fun args st r =>
    Args.command st = "" -> Forall (fun a => startsWith a "-" = true) args ->
    Args.command r = "")).
  - auto.
  - intros arg rest st r _ Hd _ _ Hall. inversion Hall; subst. congruence.
  - intros arg next rest st r _ _ Hd _ _ Hall. inversion Hall as [|? ? _ Hall']; subst.
    inversion Hall'; subst. congruence.
  - intros arg rest st r _ _ IH Hc Hall. inversion Hall; subst. now apply IH.
  - intros arg rest st r _ Hd _ _ Hall. inversion Hall; subst. congruence.
  - intros arg rest st r _ _ IH Hc Hall. inversion Hall; subst. now apply IH.
Qed.

Section MainRuns.
Context `{Host}.

(** With the token [--help] anywhere on the command line, [main] prints
    the usage text and exits with code 0, whatever the other arguments
    are and whether or not the cache can be loaded. *)
Theorem main_help_anywhere (args : list string) (load : LoadResult) :
  In "--help" args -> main args load = ([ConsoleLog USAGE], Exited 0).
Proof.
  intros Hin. unfold main, parseArgs.
  rewrite parseArgs_loop_help by now right.
  rewrite orb_true_r. reflexivity.
Qed.

(** When every token of the command line starts with a dash (in
    particular when there is none) there is no command: [main] prints the
    usage text and exits with code 0 without looking at the cache. *)
Theorem main_without_command (args : list string) (load : LoadResult) :
  Forall (fun a => startsWith a "-" = true) args ->
  main args load = ([ConsoleLog USAGE], Exited 0).
Proof.
  intros Hall. unfold main, parseArgs.
  rewrite parseArgs_loop_no_command by auto. reflexivity.
Qed.

(** When the cache cannot be loaded, every command, known or not, ends
    the same way: the message of the error on the error stream, behind
    "Error: ", and exit code 1. *)
Theorem main_load_failure (args : list string) (message : string) :
  Args.command (parseArgs args) <> "" ->
  flag_truthy (Record_get (Args.flags (parseArgs args)) "help") = false ->
  main args (LoadFailed message) = ([ConsoleError ("Error: " ++ message)], Exited 1).
Proof.
  intros Hc Hh. apply truthy_true_iff in Hc. unfold main. rewrite Hc, Hh. reflexivity.
Qed.

(** [show], [search] and [export] without a positional argument (or with
    an empty one) write their usage line to the error stream and exit
    with code 1; nothing is printed, searched or written. *)
Theorem main_missing_argument (args : list string) (cache : GranolaCache.t) :
  flag_truthy (Record_get (Args.flags (parseArgs args)) "help") = false ->
  has_positional (Args.positional (parseArgs args)) = false ->
  (Args.command (parseArgs args) = "show" ->
   main args (Loaded cache)
   = ([ConsoleError "Usage: granola show <meeting-id> [--transcript]"], Exited 1))
  /\ (Args.command (parseArgs args) = "search" ->
      main args (Loaded cache) = ([ConsoleError "Usage: granola search <query>"], Exited 1))
  /\ (Args.command (parseArgs args) = "export" ->
      main args (Loaded cache)
      = ([ConsoleError "Usage: granola export <meeting-id> [--output DIR]"], Exited 1)).
Proof.
  intros Hh Hp. repeat split; intros Hc; unfold main; rewrite Hc, Hh, Hp; reflexivity.
Qed.

(** A command that is none of [list], [show], [search] and [export] is
    reported on the error stream, followed by the usage text on the
    standard output, and the exit code is 1. *)
Theorem main_unknown_command (args : list string) (cache : GranolaCache.t) :
  let command := Args.command (parseArgs args) in
  command <> "" ->
  flag_truthy (Record_get (Args.flags (parseArgs args)) "help") = false ->
  command <> "list" -> command <> "show" -> command <> "search" -> command <> "export" ->
  main args (Loaded cache)
  = ([ConsoleError ("Unknown command: " ++ command); ConsoleLog USAGE], Exited 1).
Proof.
  intros command Hc Hh H1 H2 H3 H4. apply truthy_true_iff in Hc.
  apply String.eqb_neq in H1, H2, H3, H4.
  unfold main. fold command. rewrite Hc, Hh, H1, H2, H3, H4. reflexivity.
Qed.

End MainRuns.

Lemma main_help_anywhere_witness :
  main (H := UtcHost.host) ["export"; "abc1"; "--output"; "--help"] (LoadFailed "no cache")
  = ([ConsoleLog USAGE], Exited 0).
Proof.
  apply (main_help_anywhere (H := UtcHost.host)). simpl. tauto.
Defined.

Lemma main_without_command_witness :
  main (H := UtcHost.host) ["--days"; "-v"] (Loaded Sample.cache)
  = ([ConsoleLog USAGE], Exited 0).
Proof.
  apply (main_without_command (H := UtcHost.host)). repeat constructor.
Defined.

Lemma main_load_failure_witness :
  main (H := UtcHost.host) ["frobnicate"; "now"] (LoadFailed "no cache")
  = ([ConsoleError "Error: no cache"], Exited 1).
Proof.
  apply (main_load_failure (H := UtcHost.host)); [discriminate | reflexivity].
Defined.

Lemma main_missing_argument_witness :
  main (H := UtcHost.host) ["export"; "--output"; "dir"] (Loaded Sample.cache)
  = ([ConsoleError "Usage: granola export <meeting-id> [--output DIR]"], Exited 1).
Proof.
  refine (proj2 (proj2 (main_missing_argument (H := UtcHost.host)
                          ["export"; "--output"; "dir"] Sample.cache eq_refl eq_refl))
                eq_refl).
Defined.

Lemma main_unknown_command_witness :
  main (H := UtcHost.host) ["frobnicate"] (Loaded Sample.cache)
  = ([ConsoleError "Unknown command: frobnicate"; ConsoleLog USAGE], Exited 1).
Proof.
  apply (main_unknown_command (H := UtcHost.host)); (discriminate || reflexivity).
Defined.

(** ** show and export: what else can happen *)




Section ResolveMore.
Context `{Host}.

(** For an identifier shorter than 36 units that no document identifier
    starts with, [show] and [export] report "Meeting not found" on the
    error stream and exit with code 1; nothing is printed, no directory
    is created and no file is written. *)
Theorem resolve_prefix_without_match (cache : GranolaCache.t) (id : string) :
  (String.length id < 36)%nat ->
  prefix_matches cache id = [] ->
  let not_found := ([ConsoleError ("Meeting not found: " ++ id)], Exited 1) in
  (forall includeTranscript, showMeeting cache id includeTranscript = not_found)
  /\ (forall outputDir, exportMeeting cache id outputDir = not_found).
Proof.
  intros Hlen Hm not_found.
  assert (Hr : resolve_document cache id
               = ([ConsoleError ("Meeting not found: " ++ id)], Exited 1)).
  { unfold resolve_document.
    replace (Z.of_nat (String.length id) <? 36) with true
      by (symmetry; apply Z.ltb_lt; lia).
    rewrite Hm. reflexivity. }
  split; intros x; [unfold showMeeting | unfold exportMeeting]; now rewrite Hr.
Qed.

(** The document a prefix selects has an identifier that starts with
    the prefix, and is a document of the snapshot. *)
Theorem resolve_prefix_selects_a_match (cache : GranolaCache.t) (id : string)
        (d : Document.t) :
  (String.length id < 36)%nat ->
  resolve_document cache id = ret d ->
  startsWith (Document.id d) id = true /\ In d (getDocuments cache).
Proof.
  intros Hlen Hr. unfold resolve_document in Hr.
  replace (Z.of_nat (String.length id) <? 36) with true in Hr
    by (symmetry; apply Z.ltb_lt; lia).
  destruct (prefix_matches cache id) as [|m [|m' r]] eqn:Em; try discriminate.
  rewrite bind_ret_l in Hr. injection Hr as <-.
  assert (Hin : In m (prefix_matches cache id)) by (rewrite Em; now left).
  unfold prefix_matches in Hin. apply filter_In in Hin. tauto.
Qed.





End ResolveMore.

Lemma resolve_prefix_without_match_witness :
  showMeeting (H := UtcHost.host) Sample.cache "zzz" true
  = ([ConsoleError "Meeting not found: zzz"], Exited 1)
  /\ exportMeeting (H := UtcHost.host) Sample.cache "zzz" "./out"
     = ([ConsoleError "Meeting not found: zzz"], Exited 1).
Proof.
  destruct (resolve_prefix_without_match (H := UtcHost.host) Sample.cache "zzz")
    as [Hshow Hexport]; [vm_compute; lia | reflexivity |].
  split; [apply Hshow | apply Hexport].
Defined.

Lemma resolve_prefix_selects_a_match_witness :
  startsWith (Document.id Sample.doc_sync) "abc1" = true
  /\ In Sample.doc_sync (getDocuments Sample.cache).
Proof.
  apply (resolve_prefix_selects_a_match Sample.cache "abc1").
  - vm_compute. lia.
  - reflexivity.
Defined.



(** ** The quoted title of the front matter *)

Lemma escape_quotes_escaped (s : string) (after_backslash : bool) :
  Runs.quotes_escaped after_backslash (escape_quotes s) = true.
Proof.
  revert after_backslash. induction s as [|c r IH]; intros b; simpl; [reflexivity |].
  destruct (Ascii.eqb c "034") eqn:Ec; simpl.
  - apply IH.
  - rewrite Ec. simpl. apply IH.
Qed.

Lemma escape_quotes_length (s : string) :
  String.length (escape_quotes s) = (String.length s + Runs.count_quotes s)%nat.
Proof.
  induction s as [|c r IH]; simpl; [reflexivity |].
  destruct (Ascii.eqb c "034"); simpl; rewrite IH; lia.
Qed.

Lemma escape_quotes_none (s : string) :
  Runs.count_quotes s = O -> escape_quotes s = s.
Proof.
  induction s as [|c r IH]; simpl; [reflexivity |].
  destruct (Ascii.eqb c "034"); simpl; [discriminate |]. intros Hq. now rewrite IH.
Qed.

(** In the title written to the front matter of an export every double
    quote comes right after a backslash, one unit is added for each double
    quote of the title, and a title without double quotes is written as it
    is. *)
Theorem escape_quotes_spec (s : string) :
  Runs.quotes_escaped false (escape_quotes s) = true
  /\ String.length (escape_quotes s) = (String.length s + Runs.count_quotes s)%nat
  /\ (Runs.count_quotes s = O -> escape_quotes s = s).
Proof.
  split; [apply escape_quotes_escaped |].
  split; [apply escape_quotes_length | apply escape_quotes_none].
Qed.

Lemma escape_quotes_spec_witness : escape_quotes "Weekly Sync" = "Weekly Sync".
Proof.
  apply (proj2 (proj2 (escape_quotes_spec "Weekly Sync"))). reflexivity.
Defined.

(** ** formatTranscript, called again *)

Section TranscriptMore.
Context `{Host}.

Lemma Array_sort_ascending_fixed (l : list TranscriptSegment.t) :
  Spec.ascending start_time l -> Array_sort by_start l = l.
Proof.
  unfold Spec.ascending. induction 1 as [|x r Hr IH Hx]; simpl; [reflexivity |].
  rewrite IH. destruct r as [|y r']; [reflexivity |]. simpl.
  inversion Hx as [|? ? Hxy _]; subst.
  unfold after, by_start, num_sub. unfold Spec.time_le in Hxy.
  destruct (start_time x), (start_time y); try tauto.
  replace (0 <? z - z0) with false by (symmetry; apply Z.ltb_ge; lia). reflexivity.
Qed.

(** When every start timestamp is a valid date, formatting the array
    that a first call has left behind gives the same text again and
    leaves that array as it is: only the first call reorders. *)
Theorem formatTranscript_again (segments : list TranscriptSegment.t) :
  Spec.all_valid start_time segments ->
  formatTranscript (snd (formatTranscript segments)) = formatTranscript segments.
Proof.
  intros Hv. destruct segments as [|s r]; [reflexivity |].
  rewrite (formatTranscript_nonempty (s :: r)) by discriminate. cbn [snd].
  assert (Hne : Array_sort by_start (s :: r) <> []).
  { intros E. pose proof (Array_sort_length by_start (s :: r)) as Hl.
    rewrite E in Hl. discriminate. }
  rewrite formatTranscript_nonempty by exact Hne.
  now rewrite (Array_sort_ascending_fixed _ (sort_by_start_ascending _ Hv)).
Qed.

End TranscriptMore.

Lemma formatTranscript_again_witness :
  formatTranscript (H := UtcHost.host)
    (snd (formatTranscript (H := UtcHost.host) [Sample.seg_world; Sample.seg_hello]))
  = formatTranscript (H := UtcHost.host) [Sample.seg_world; Sample.seg_hello].
Proof.
  apply (formatTranscript_again (H := UtcHost.host)).
  repeat constructor; vm_compute; discriminate.
Defined.

(** ** list --days N *)

Lemma digits_prefix_decimal (d : Decimal.uint) (acc : Z) :
  digits_prefix 10 (NilEmpty.string_of_uint d) (Some acc) = Some (Runs.decimal_value acc d).
Proof.
  revert acc. induction d; intros acc; simpl; try reflexivity; apply IHd.
Qed.

Lemma decimal_value_pos (d : Decimal.uint) (p : positive) :
  Runs.decimal_value (Z.pos p) d = Z.pos (Pos.of_uint_acc d p).
Proof.
  revert p. induction d; intros p; cbn [Runs.decimal_value Pos.of_uint_acc];
    try reflexivity;
    match goal with
    | |- Runs.decimal_value ?v _ = Z.pos (Pos.of_uint_acc _ ?q) =>
        replace v with (Z.pos q) by lia; apply IHd
    end.
Qed.

Lemma decimal_value_zero (d : Decimal.uint) :
  Runs.decimal_value 0 d = Z.of_N (Pos.of_uint d).
Proof.
  induction d; simpl; try reflexivity; try exact IHd; apply decimal_value_pos.
Qed.

Lemma parseInt_decimal (d : Decimal.uint) :
  d <> Decimal.Nil ->
  parseInt (NilEmpty.string_of_uint d) = Some (Runs.decimal_value 0 d).
Proof.
  intros Hd. destruct d as [|d|d|d|d|d|d|d|d|d|d]; try congruence;
    destruct d; unfold parseInt; simpl;
    rewrite ?digits_prefix_decimal; simpl; f_equal;
    match goal with |- context [Runs.decimal_value ?a ?l] =>
      destruct (Runs.decimal_value a l) end; reflexivity.
Qed.

Lemma decimal_token (d : Decimal.uint) :
  d <> Decimal.Nil ->
  truthy (NilEmpty.string_of_uint d) = true
  /\ startsWith (NilEmpty.string_of_uint d) "-" = false.
Proof.
  intros Hd. destruct d; try congruence; split; reflexivity.
Qed.

Lemma of_Z_positive (p : positive) :
  of_Z (Z.pos p) = NilEmpty.string_of_uint (Pos.to_uint p).
Proof.
  unfold of_Z. simpl. pose proof (Unsigned.to_uint_nonnil p) as Hn.
  destruct (Pos.to_uint p); [congruence | reflexivity ..].
Qed.

Lemma parseArgs_list_days (s : string) :
  truthy s = true -> startsWith s "-" = false ->
  parseArgs ["list"; "--days"; s] = Args.mk "list" [] [("days", FlagString s)].
Proof.
  intros Ht Hd. unfold parseArgs.
  change (parseArgs_loop ["list"; "--days"; s] (Args.mk "" [] []))
    with (if truthy s && negb (startsWith s "-")
          then Args.mk "list" [] [("days", FlagString s)]
          else parseArgs_loop [s] (Args.mk "list" [] [("days", FlagTrue)])).
  now rewrite Ht, Hd.
Qed.

Section ListDays.
Context `{Host}.

Lemma main_list_run (args : list string) (cache : GranolaCache.t) :
  Args.command (parseArgs args) = "list" ->
  flag_truthy (Record_get (Args.flags (parseArgs args)) "help") = false ->
  main args (Loaded cache) = listMeetings cache (list_days (Args.flags (parseArgs args))).
Proof.
  intros Hc Hh. unfold main. rewrite Hc, Hh.
  change (negb (truthy "list") || false) with false. cbv iota.
  rewrite !bind_ret_l. reflexivity.
Qed.

(** [list --days N], with [N] a positive integer of at most 2^53 written
    in decimal digits, asks for the documents of the last [N] days. *)
Theorem main_list_days (n : Z) (cache : GranolaCache.t) :
  0 < n -> Runs.exact n ->
  main ["list"; "--days"; of_Z n] (Loaded cache) = listMeetings cache n.
Proof.
  intros Hn _. destruct n as [|p|p]; try lia.
  pose proof (Unsigned.to_uint_nonnil p) as Hnil.
  destruct (decimal_token _ Hnil) as [Ht Hd].
  rewrite of_Z_positive.
  rewrite main_list_run by (rewrite parseArgs_list_days by assumption; reflexivity).
  rewrite parseArgs_list_days by assumption.
  unfold list_days.
  change (Record_get (Args.flags (Args.mk "list" []
            [("days", FlagString (NilEmpty.string_of_uint (Pos.to_uint p)))])) "days")
    with (Some (FlagString (NilEmpty.string_of_uint (Pos.to_uint p)))).
  cbn [flag_to_string]. rewrite parseInt_decimal by assumption.
  rewrite decimal_value_zero, Unsigned.of_to. reflexivity.
Qed.

End ListDays.

Lemma main_list_days_witness :
  main (H := UtcHost.host) ["list"; "--days"; "30"] (Loaded Sample.cache)
  = listMeetings (H := UtcHost.host) Sample.cache 30.
Proof.
  apply (main_list_days (H := UtcHost.host) 30 Sample.cache);
    [lia | unfold Runs.exact; lia].
Defined.

(** ** What a run of main never does *)

Section MainNever.
Context `{Host}.

Lemma keeps_exportMeeting (Pc : Z -> Prop) (cache : GranolaCache.t)
      (id outputDir : string) :
  Pc 1 -> Runs.keeps (fun _ => True) Pc (exportMeeting cache id outputDir).
Proof.
  intros H1. unfold exportMeeting, export_document.
  apply keeps_bind; [apply keeps_resolve_document; auto | intros doc].
  repeat keeps_step; auto.
Qed.

(** Whatever the command line and the state of the cache, the process
    ends with exit code 0 or 1. *)
Theorem main_exit_code (args : list string) (load : LoadResult) :
  exit_code (main args load) = 0 \/ exit_code (main args load) = 1.
Proof.
  assert (Hk : Runs.keeps (fun _ => True) (fun code => code = 0 \/ code = 1)
                 (main args load)).
  { unfold main.
    repeat first
      [ apply keeps_listMeetings; auto
      | apply keeps_showMeeting; auto
      | apply keeps_searchMeetings; auto
      | apply keeps_exportMeeting; auto
      | apply keeps_resolve_document; auto
      | keeps_step; auto ]. }
  destruct Hk as [_ Hc]. unfold exit_code.
  destruct (snd (main args load)); auto.
Qed.

(** Only [export] touches the file system: for every other command, and
    when there is none, a run of [main] consists of console output
    alone, with no directory created and no file written. *)
Theorem main_console_only (args : list string) (load : LoadResult) :
  Args.command (parseArgs args) <> "export" ->
  Forall (fun e => Runs.is_console e = true) (trace (main args load))
  /\ files_of (trace (main args load)) = [].
Proof.
  intros Hne.
  assert (Hk : Runs.keeps (fun e => Runs.is_console e = true) (fun _ => True)
                 (main args load)).
  { unfold main. set (a := parseArgs args) in *.
    apply keeps_bind; [repeat keeps_step; auto | intros _].
    apply keeps_bind; [repeat keeps_step; auto | intros cache].
    destruct (String.eqb (Args.command a) "list"); [apply keeps_listMeetings; auto |].
    destruct (String.eqb (Args.command a) "show").
    { apply keeps_bind; [repeat keeps_step; auto | intros _].
      apply keeps_showMeeting; auto. }
    destruct (String.eqb (Args.command a) "search").
    { apply keeps_bind; [repeat keeps_step; auto | intros _].
      apply keeps_searchMeetings; auto. }
    destruct (String.eqb_spec (Args.command a) "export"); [contradiction |].
    repeat keeps_step; auto. }
  destruct Hk as [Hall _]. split; [exact Hall |].
  unfold trace, files_of. induction Hall as [|e tr He _ IH]; [reflexivity |].
  simpl. rewrite IH. now destruct e.
Qed.

End MainNever.

Lemma main_console_only_witness :
  files_of (trace (main (H := UtcHost.host) ["show"; "abc1"; "--transcript"]
                     (Loaded Sample.cache))) = [].
Proof.
  apply (main_console_only (H := UtcHost.host)). discriminate.
Defined.

(** ** Loading a cache file *)

Section LoaderMore.
Variable JSON_parse : string -> option Raw.json.

(** The ways the constructor fails.  Without a file it throws the "not
    found" error that names the path.  It throws the error of the decoder
    when the text of the file is not JSON, and when the [cache] field is
    a string that is not JSON.  It throws a [TypeError] when the file
    holds [null]. *)
Theorem constructor_failures (cachePath : string) :
  Raw.constructor JSON_parse cachePath None
  = Threw ("Granola cache not found at " ++ cachePath ++ ". Is Granola installed?")
  /\ (forall raw,
        JSON_parse raw = None ->
        Raw.constructor JSON_parse cachePath (Some raw) = Threw "SyntaxError")
  /\ (forall raw outer s,
        JSON_parse raw = Some outer -> outer <> Raw.JNull ->
        Raw.get outer "cache" = Some (Raw.JString s) -> JSON_parse s = None ->
        Raw.constructor JSON_parse cachePath (Some raw) = Threw "SyntaxError")
  /\ (forall raw,
        JSON_parse raw = Some Raw.JNull ->
        Raw.constructor JSON_parse cachePath (Some raw)
        = Threw "TypeError: Cannot read properties of null (reading 'cache')").
Proof.
  split; [reflexivity |]. split; [| split].
  - intros raw Hp. unfold Raw.constructor. now rewrite Hp.
  - intros raw outer s Hp Hnn Hc Hs. unfold Raw.constructor. rewrite Hp.
    rewrite unwrap_not_null by assumption. now rewrite Hc, Hs.
  - intros raw Hp. unfold Raw.constructor. now rewrite Hp.
Qed.

Lemma get_cache_of_typed (c : GranolaCache.t) :
  Raw.get (Encode.data c) "cache" = None.
Proof.
  unfold Encode.data. destruct (GranolaCache.data c) as [[[st|]]|]; reflexivity.
Qed.

(** A file that holds a typed snapshot loads to that snapshot in both
    layouts: with the state JSON-encoded once more in the string of the
    [cache] field (next to any other field), and with the state at the top
    level.  On what is loaded, the accessors list and find exactly the
    documents and the transcripts of the snapshot. *)
Theorem constructor_loads_snapshot
  (c : GranolaCache.t) (cachePath raw : string) :
  ((exists outer s,
       JSON_parse raw = Some outer /\ outer <> Raw.JNull
       /\ Raw.get outer "cache" = Some (Raw.JString s)
       /\ JSON_parse s = Some (Encode.data c))
   \/ (JSON_parse raw = Some (Encode.data c) /\ GranolaCache.data c <> None)) ->
  exists data,
    Raw.constructor JSON_parse cachePath (Some raw) = Returned data
    /\ Raw.getDocuments data = map Encode.document (getDocuments c)
    /\ (forall id, Raw.getDocument data id = option_map Encode.document (getDocument c id))
    /\ (forall id, Raw.getTranscript data id
                   = Raw.JArray (map Encode.segment (getTranscript c id))).
Proof.
  intros Hlayout. exists (Encode.data c). split.
  - unfold Raw.constructor.
    destruct Hlayout as [(outer & s & Hp & Hnn & Hc & Hs) | [Hp Hd]]; rewrite Hp.
    + rewrite unwrap_not_null by assumption. now rewrite Hc, Hs.
    + rewrite unwrap_not_null.
      * now rewrite get_cache_of_typed.
      * unfold Encode.data. destruct (GranolaCache.data c); [discriminate | congruence].
  - split; [apply getDocuments_typed |].
    split; [apply getDocument_typed | apply getTranscript_typed].
Qed.

End LoaderMore.

Lemma constructor_failures_witness :
  Raw.constructor (Fixture.parse Sample.cache) "cache-v3.json" (Some "not json")
  = Threw "SyntaxError".
Proof.
  apply (proj1 (proj2 (constructor_failures (Fixture.parse Sample.cache) "cache-v3.json"))).
  reflexivity.
Defined.

Lemma constructor_loads_snapshot_witness :
  exists data,
    Raw.constructor (Fixture.parse Sample.cache) "cache-v3.json" (Some Fixture.file_text)
    = Returned data
    /\ Raw.getDocuments data = map Encode.document (getDocuments Sample.cache).
Proof.
  destruct (constructor_loads_snapshot (Fixture.parse Sample.cache) Sample.cache
              "cache-v3.json" Fixture.file_text) as (data & Hload & Hdocs & _).
  - left. eexists. exists Fixture.cache_text.
    split; [reflexivity |]. split; [discriminate |]. split; reflexivity.
  - exists data. split; assumption.
Defined.

(** ** A flag given last *)

Lemma parseArgs_loop_command (arg : string) (l : list string) (st : Args.t) :
  truthy (Args.command st) = false -> startsWith arg "-" = false ->
  parseArgs_loop (arg :: l) st
  = parseArgs_loop l (Args.mk arg (Args.positional st) (Args.flags st)).
Proof. intros Hc Hd. simpl. now rewrite Hc, Hd. Qed.

Lemma parseArgs_loop_positional (arg : string) (l : list string) (st : Args.t) :
  truthy (Args.command st) = true -> startsWith arg "-" = false ->
  parseArgs_loop (arg :: l) st
  = parseArgs_loop l
      (Args.mk (Args.command st) (Args.positional st ++ [arg]) (Args.flags st)).
Proof.
  intros Hc Hd. simpl. rewrite Hc, Hd. simpl.
  destruct (startsWith arg "--") eqn:Edd; [| reflexivity].
  apply startsWith_two_dashes in Edd. congruence.
Qed.

Lemma parseArgs_loop_skip (arg : string) (l : list string) (st : Args.t) :
  startsWith arg "-" = true -> startsWith arg "--" = false ->
  parseArgs_loop (arg :: l) st = parseArgs_loop l st.
Proof.
  intros Hd Hdd. simpl. rewrite Hd, Hdd. now rewrite andb_false_r.
Qed.

Lemma parseArgs_loop_value (arg next : string) (l : list string) (st : Args.t) :
  startsWith arg "--" = true -> truthy next = true -> startsWith next "-" = false ->
  parseArgs_loop (arg :: next :: l) st
  = parseArgs_loop l
      (Args.mk (Args.command st) (Args.positional st)
         (flag_set (Args.flags st) (slice_from 2 arg) (FlagString next))).
Proof.
  intros Hdd Ht Hd. pose proof (startsWith_two_dashes arg Hdd) as Hd1.
  simpl. now rewrite Hd1, Hdd, Ht, Hd, andb_false_r.
Qed.

Lemma parseArgs_loop_boolean (arg : string) (l : list string) (st : Args.t) :
  startsWith arg "--" = true ->
  (forall next l', l = next :: l' -> truthy next && negb (startsWith next "-") = false) ->
  parseArgs_loop (arg :: l) st
  = parseArgs_loop l
      (Args.mk (Args.command st) (Args.positional st)
         (flag_set (Args.flags st) (slice_from 2 arg) FlagTrue)).
Proof.
  intros Hdd Hnext. pose proof (startsWith_two_dashes arg Hdd) as Hd1.
  simpl. rewrite Hd1, Hdd, andb_false_r.
  destruct l as [|next l']; [reflexivity |].
  now rewrite (Hnext next l' eq_refl).
Qed.

(** Reading a vector and then a second one that starts with a dashed
    token (or is empty) is reading the two in a row. *)
Lemma parseArgs_loop_app (suffix : list string) :
  (forall t r, suffix = t :: r -> startsWith t "-" = true) ->
  forall args st,
    parseArgs_loop (args ++ suffix) st = parseArgs_loop suffix (parseArgs_loop args st).
Proof.
  intros Hsuffix args st. symmetry. revert args st.
  apply (parseArgs_loop_cases (fun args st r =>
    parseArgs_loop suffix r = parseArgs_loop (args ++ suffix) st)).
  - reflexivity.
  - intros arg rest st r Hc Hd IH. rewrite IH. simpl app.
    rewrite parseArgs_loop_command by assumption. reflexivity.
  - intros arg next rest st r Hdd Ht Hd IH. rewrite IH. simpl app.
    rewrite parseArgs_loop_value by assumption. reflexivity.
  - intros arg rest st r Hdd Hnext IH. rewrite IH. simpl app.
    rewrite parseArgs_loop_boolean; [reflexivity | exact Hdd |].
    intros next l' El. destruct rest as [|x rest'].
    + simpl in El. rewrite (Hsuffix next l' El). now rewrite andb_false_r.
    + simpl in El. injection El as <- <-. now apply (Hnext x rest').
  - intros arg rest st r Hc Hd IH. rewrite IH. simpl app.
    rewrite parseArgs_loop_positional by assumption. reflexivity.
  - intros arg rest st r Hd Hdd IH. rewrite IH. simpl app.
    rewrite parseArgs_loop_skip by assumption. reflexivity.
Qed.

Lemma startsWith_flag (k : string) : startsWith ("--" ++ k) "--" = true.
Proof.
  unfold startsWith.
  change (String.prefix "--" ("--" ++ k)) with (String.prefix "" k).
  apply prefix_empty.
Qed.

(** A flag with its value, [--k v], added at the end of a command line
    sets the flag [k] to [v], also when [k] was given before; the
    command, the positional arguments and the other flags stay as they
    were.  The name [__proto__] is the exception: nothing is stored under
    it, and the flags stay as they were. *)
Theorem parseArgs_trailing_flag (args : list string) (k v : string) :
  truthy v = true -> startsWith v "-" = false ->
  let a := parseArgs args in
  let a' := parseArgs (args ++ ["--" ++ k; v]) in
  Args.command a' = Args.command a
  /\ Args.positional a' = Args.positional a
  /\ (k <> "__proto__" ->
      Record_get (Args.flags a') k = Some (FlagString v)
      /\ (forall k', k' <> k ->
                     Record_get (Args.flags a') k' = Record_get (Args.flags a) k'))
  /\ (k = "__proto__" -> Args.flags a' = Args.flags a).
Proof.
  intros Ht Hd a a'. unfold a', parseArgs.
  rewrite parseArgs_loop_app
    by (intros t r [= <- _]; apply startsWith_two_dashes, startsWith_flag).
  fold (parseArgs args). fold a.
  rewrite parseArgs_loop_value by (apply startsWith_flag || assumption).
  change (slice_from 2 ("--" ++ k)) with k. cbn [parseArgs_loop].
  cbn [Args.command Args.positional Args.flags].
  split; [reflexivity |]. split; [reflexivity |]. split.
  - intros Hk. rewrite flag_set_stored by assumption. cbn [Record_get].
    rewrite String.eqb_refl. split; [reflexivity |].
    intros k' Hk'. apply not_eq_sym in Hk'. apply String.eqb_neq in Hk'. now rewrite Hk'.
  - intros ->. reflexivity.
Qed.

Lemma parseArgs_trailing_flag_witness :
  Record_get (Args.flags (parseArgs (["list"; "--days"; "3"] ++ ["--" ++ "days"; "30"])))
    "days"
  = Some (FlagString "30").
Proof.
  destruct (parseArgs_trailing_flag ["list"; "--days"; "3"] "days" "30" eq_refl eq_refl)
    as (_ & _ & Hset & _).
  apply Hset. discriminate.
Defined.

(** ** The attendees shown by list *)

Lemma filter_length_le {A} (f : A -> bool) (l : list A) :
  (List.length (filter f l) <= List.length l)%nat.
Proof.
  induction l as [|x r IH]; simpl; [lia |]. destruct (f x); simpl; lia.
Qed.

Lemma join_not_empty (sep s : string) (l : list string) :
  s <> "" -> join sep (s :: l) <> "".
Proof.
  intros Hs. unfold join. cbn [String.concat].
  destruct s as [|c s']; [congruence |]. destruct l; discriminate.
Qed.

Lemma list_names_short (l : list Person.t) :
  map (fun v => js_or_str v "")
      (filter truthy_opt
         (map (fun a => js_or (resolved_fullName a)
                          (option_map (split_head "@") (Person.email a))) l))
  = Spec.short_names l.
Proof.
  unfold Spec.short_names.
  induction l as [|a r IH]; [reflexivity |].
  cbn [map filter flat_map]. rewrite <- IH. clear IH.
  unfold Spec.short_name, js_or.
  destruct (resolved_fullName a) as [n|]; [destruct (truthy n) eqn:En |].
  - cbn [truthy_opt]. rewrite En. cbn [map app].
    unfold js_or_str, js_or. now rewrite En.
  - destruct (Person.email a) as [e|]; cbn [option_map truthy_opt]; [| reflexivity].
    destruct (truthy (split_head "@" e)) eqn:Ee; [| reflexivity].
    cbn [map app]. unfold js_or_str, js_or. now rewrite Ee.
  - destruct (Person.email a) as [e|]; cbn [option_map truthy_opt]; [| reflexivity].
    destruct (truthy (split_head "@" e)) eqn:Ee; [| reflexivity].
    cbn [map app]. unfold js_or_str, js_or. now rewrite Ee.
Qed.

Lemma short_names_length (l : list Person.t) :
  (List.length (Spec.short_names l) <= List.length l)%nat.
Proof.
  unfold Spec.short_names. induction l as [|a r IH]; [simpl; lia |].
  cbn [flat_map]. rewrite length_app. cbn [List.length].
  assert (List.length (Spec.short_name a) <= 1)%nat; [| lia].
  unfold Spec.short_name.
  destruct (resolved_fullName a) as [n|]; [destruct (truthy n); [simpl; lia |] |];
    (destruct (Person.email a) as [e|]; [| simpl; lia];
     destruct (truthy (split_head "@" e)); simpl; lia).
Qed.

Lemma short_names_not_empty (l : list Person.t) :
  Forall (fun s => s <> "") (Spec.short_names l).
Proof.
  unfold Spec.short_names. induction l as [|a r IH]; [constructor |].
  cbn [flat_map]. apply Forall_app. split; [| exact IH].
  unfold Spec.short_name.
  destruct (resolved_fullName a) as [n|];
    [destruct (truthy n) eqn:En; [repeat constructor; now apply truthy_true_iff |] |];
    (destruct (Person.email a) as [e|]; [| constructor];
     destruct (truthy (split_head "@" e)) eqn:Ee; [| constructor];
     repeat constructor; now apply truthy_true_iff).
Qed.

(** For every meeting [list] shows, joined by a comma and a space, the
    short names of its first three attendees: for each of them the
    resolved full name when there is one, else the part of the email
    before the at sign when it is not empty, else nothing (where [show]
    prints "Unknown").  So at most three names are shown and none is
    empty, and the line of attendees is left out exactly when none of the
    three has a short name. *)
Theorem list_attendees_at_most_three (doc : Document.t) :
  let names :=
    match doc_attendees doc with
    | Some l => Spec.short_names (firstn 3 l)
    | None => []
    end in
  list_attendees doc = join ", " names
  /\ (List.length names <= 3)%nat
  /\ Forall (fun s => s <> "") names
  /\ (truthy (list_attendees doc) = false <-> names = []).
Proof.
  intros names.
  assert (Hj : list_attendees doc = join ", " names).
  { unfold list_attendees, names. destruct (doc_attendees doc) as [l|]; [| reflexivity].
    now rewrite list_names_short. }
  assert (Hne : Forall (fun s => s <> "") names).
  { unfold names. destruct (doc_attendees doc); [apply short_names_not_empty | constructor]. }
  split; [exact Hj |]. split; [| split; [exact Hne |]].
  - unfold names. destruct (doc_attendees doc) as [l|]; [| simpl; lia].
    eapply Nat.le_trans; [apply short_names_length |]. rewrite length_firstn. lia.
  - rewrite Hj. split.
    + intros Ht. destruct names as [|s r]; [reflexivity |]. exfalso.
      inversion Hne as [|? ? Hs _]; subst.
      apply (join_not_empty ", " s r Hs).
      unfold truthy in Ht. apply negb_false_iff in Ht. now apply String.eqb_eq in Ht.
    + intros ->. reflexivity.
Qed.

Lemma list_attendees_at_most_three_witness :
  list_attendees Sample.doc_sync = "Ada Lovelace, bob"
  /\ truthy (list_attendees
               (Sample.document "id" "Solo" "2026-01-30T10:00:00Z" (Some [Sample.nobody])))
     = false.
Proof.
  split.
  - exact (proj1 (list_attendees_at_most_three Sample.doc_sync)).
  - apply (proj2 (proj2 (proj2
             (list_attendees_at_most_three
                (Sample.document "id" "Solo" "2026-01-30T10:00:00Z"
                   (Some [Sample.nobody])))))).
    reflexivity.
Defined.


